(** * pdf-data-processor: the text-block parser and the distribution engine

    A shallow embedding of [src/main.py]: the line classifier
    ([clean_text]), the block segmenter and field extractor
    ([extract_data_from_txt]) and the aggregator
    ([calculate_total_value], [format_brazilian_number],
    [calculate_percentages_and_distribution]).

    A Python [str] is a list of Unicode code points.  The interpreter's
    built-ins the program calls ([str.split], [str.strip], [re.search],
    [float], the ['f'] format) are modelled in [Module Py]; the functions
    of [main.py] follow, under their own names. *)

From Stdlib Require Import List NArith ZArith QArith Qabs Qcanon String Ascii Bool Lia Field.
From Stdlib Require Import Floats.SpecFloat.
Import ListNotations.

Open Scope N_scope.

(** ** Strings *)

Abbreviation char := N (only parsing).
Abbreviation str := (list N) (only parsing).

Module Py.

(** *** Literals: a source literal is UTF-8 text, a [str] holds code points. *)

Definition cont (b : N) : N := b mod 64.

Fixpoint utf8_decode (bs : list N) : str :=
  match bs with
  | [] => []
  | b0 :: r0 =>
    if b0 <? 128 then b0 :: utf8_decode r0
    else match r0 with
    | [] => []
    | b1 :: r1 =>
      if b0 <? 224 then ((b0 mod 32) * 64 + cont b1) :: utf8_decode r1
      else match r1 with
      | [] => []
      | b2 :: r2 =>
        if b0 <? 240 then ((b0 mod 16) * 4096 + cont b1 * 64 + cont b2) :: utf8_decode r2
        else match r2 with
        | [] => []
        | b3 :: r3 =>
          ((b0 mod 8) * 262144 + cont b1 * 4096 + cont b2 * 64 + cont b3) :: utf8_decode r3
        end
      end
    end
  end.

Definition lit (s : string) : str :=
  utf8_decode (map N_of_ascii (list_ascii_of_string s)).

Definition nl : char := 10.

(** *** Character classes of the interpreter *)

(** [str.isspace] on one character, which is also [\s] of [re] on [str]
    patterns and what [str.strip()] removes. *)
Definition space_chars : list char :=
  [9; 10; 11; 12; 13; 28; 29; 30; 31; 32; 133; 160; 5760;
   8192; 8193; 8194; 8195; 8196; 8197; 8198; 8199; 8200; 8201; 8202;
   8232; 8233; 8239; 8287; 12288].

Definition is_space (c : char) : bool := existsb (N.eqb c) space_chars.

(** The characters of general category Nd come in runs of ten, one per
    script, each starting at its digit zero (Unicode 15). *)
Definition decimal_zeros : list char :=
  [ 48; 1632; 1776; 1984; 2406; 2534; 2662; 2790; 2918; 3046; 3174; 3302;
    3430; 3558; 3664; 3792; 3872; 4160; 4240; 6112; 6160; 6470; 6608; 6784;
    6800; 6992; 7088; 7232; 7248; 42528; 43216; 43264; 43472; 43504; 43600;
    44016; 65296; 66720; 68912; 69734; 69872; 69942; 70096; 70384; 70736;
    70864; 71248; 71360; 71472; 71904; 72016; 72784; 73040; 73120; 73552;
    92768; 92864; 93008; 120782; 120792; 120802; 120812; 120822; 123200;
    123632; 124144; 125264; 130032 ].

(** The decimal value of a character, when it has one. *)
Definition decimal_value (c : char) : option N :=
  match find (fun z => (z <=? c) && (c <? z + 10)) decimal_zeros with
  | Some z => Some (c - z)
  | None => None
  end.

(** [\d] of [re] on [str] patterns. *)
Definition is_digit (c : char) : bool :=
  match decimal_value c with Some _ => true | None => false end.

(** *** [str] methods *)

Fixpoint str_eqb (a b : str) : bool :=
  match a, b with
  | [], [] => true
  | x :: a', y :: b' => (x =? y) && str_eqb a' b'
  | _, _ => false
  end.

(** [s.startswith(p)] *)
Fixpoint startswith (p s : str) : bool :=
  match p, s with
  | [], _ => true
  | _ :: _, [] => false
  | x :: p', y :: s' => (x =? y) && startswith p' s'
  end.

(** [sub in s] *)
Fixpoint contains (sub s : str) : bool :=
  startswith sub s ||
  match s with
  | [] => false
  | _ :: s' => contains sub s'
  end.

(** [s.lstrip()], [s.rstrip()], [s.strip()] *)
Fixpoint lstrip (s : str) : str :=
  match s with
  | c :: s' => if is_space c then lstrip s' else s
  | [] => []
  end.

Definition rstrip (s : str) : str := rev (lstrip (rev s)).

Definition strip (s : str) : str := rstrip (lstrip s).

(** [s.replace(old, new)] for a one-character [old]. *)
Fixpoint replace (old : char) (new : str) (s : str) : str :=
  match s with
  | [] => []
  | c :: s' => (if c =? old then new else [c]) ++ replace old new s'
  end.

(** [s.split(sep)] for a one-character [sep]: [cur] is the piece being
    read, in reverse. *)
Fixpoint split_from (sep : char) (cur : str) (s : str) : list str :=
  match s with
  | [] => [rev cur]
  | c :: s' =>
    if c =? sep then rev cur :: split_from sep [] s'
    else split_from sep (c :: cur) s'
  end.

Definition split (sep : char) (s : str) : list str := split_from sep [] s.

(** [sep.join(parts)] for a one-character [sep]. *)
Fixpoint join (sep : char) (parts : list str) : str :=
  match parts with
  | [] => []
  | [p] => p
  | p :: rest => p ++ sep :: join sep rest
  end.

(** *** Regular expressions: the fragment of [re] the program uses

    A pattern is a sequence of repeated character classes, groups and
    the end anchor.  [matches r s] lists every way [r] matches a prefix
    of [s], as (groups captured, text left), in the order in which the
    backtracking matcher tries them; [search] returns the groups of the
    first match at the leftmost position that has one. *)

Inductive re : Type :=
  | Rep (cls : char -> bool) (lo : nat) (hi : option nat) (greedy : bool)
  | Seq (r1 r2 : re)
  | Group (r : re)
  | Eol.

(** The length of the longest prefix of [s] inside [cls], at most [hi]. *)
Fixpoint run (cls : char -> bool) (hi : option nat) (s : str) : nat :=
  match hi, s with
  | Some O, _ => O
  | _, [] => O
  | _, c :: s' =>
    if cls c then S (run cls (option_map pred hi) s') else O
  end.

(** The repetition counts to try, from [lo] to the run, most first when
    greedy and fewest first when lazy. *)
Definition counts (lo mx : nat) (greedy : bool) : list nat :=
  let up := seq lo (S mx - lo) in
  if greedy then rev up else up.

Definition at_eol (s : str) : bool :=
  match s with
  | [] => true
  | [c] => c =? nl
  | _ => false
  end.

Fixpoint matches (r : re) (s : str) : list (list str * str) :=
  match r with
  | Rep cls lo hi greedy =>
    map (fun n => ([], skipn n s)) (counts lo (run cls hi s) greedy)
  | Seq r1 r2 =>
    flat_map (fun m1 =>
      map (fun m2 => (fst m1 ++ fst m2, snd m2)) (matches r2 (snd m1)))
      (matches r1 s)
  | Group r1 =>
    map (fun m => (firstn (List.length s - List.length (snd m)) s :: fst m, snd m))
      (matches r1 s)
  | Eol => if at_eol s then [([], s)] else []
  end.

(** [re.search(r, s)]: [Some groups] for a match object, [None] for [None]. *)
Fixpoint search (r : re) (s : str) : option (list str) :=
  match matches r s with
  | m :: _ => Some (fst m)
  | [] =>
    match s with
    | [] => None
    | _ :: s' => search r s'
    end
  end.

(** Pattern syntax. *)
Definition cls_dot (c : char) : bool := negb (c =? nl).        (* .  *)
Definition cls_is (x : char) (c : char) : bool := c =? x.      (* a literal *)
Definition cls_range (a b : char) (c : char) : bool := (a <=? c) && (c <=? b).
Definition cls_or (f g : char -> bool) (c : char) : bool := f c || g c.

Definition plus (cls : char -> bool) : re := Rep cls 1 None true.       (* x+  *)
Definition plus_lazy (cls : char -> bool) : re := Rep cls 1 None false. (* x+? *)
Definition star (cls : char -> bool) : re := Rep cls 0 None true.       (* x*  *)
Definition exactly (n : nat) (cls : char -> bool) : re := Rep cls n (Some n) true. (* x{n} *)
Definition one (x : char) : re := exactly 1 (cls_is x).


(** *** [float(s)] on a [str]: which texts are accepted, and as what

    The text is first brought to ASCII (other white space becomes a
    blank, other decimal digits their ASCII digit, anything else [?]),
    stripped of ASCII white space, checked for underscores (only between
    two digits) and then read as [inf], [nan] or a decimal number with
    an optional exponent, which has to use up the whole text. *)

Inductive literal : Type :=
  | LitNum (neg : bool) (m : N) (e : Z)   (* (-1)^neg * m * 10^e *)
  | LitInf (neg : bool)
  | LitNan.

Definition to_ascii (c : char) : char :=
  if c <? 127 then c
  else if is_space c then 32
  else match decimal_value c with
       | Some d => 48 + d
       | None => 63
       end.

Definition is_ascii_space (c : char) : bool :=
  ((9 <=? c) && (c <=? 13)) || (c =? 32).

Definition is_ascii_digit (c : char) : bool := (48 <=? c) && (c <=? 57).

Fixpoint lstrip_ascii (s : str) : str :=
  match s with
  | c :: s' => if is_ascii_space c then lstrip_ascii s' else s
  | [] => []
  end.

Definition strip_ascii (s : str) : str :=
  rev (lstrip_ascii (rev (lstrip_ascii s))).

(** Every underscore stands after a digit and before a digit; [prev] is
    the character before [s]. *)
Fixpoint underscores_ok (prev : char) (s : str) : bool :=
  match s with
  | [] => negb (prev =? 95)
  | c :: s' =>
    (if c =? 95 then is_ascii_digit prev
     else negb (prev =? 95) || is_ascii_digit c)
    && underscores_ok c s'
  end.

Definition lower (c : char) : char :=
  if (65 <=? c) && (c <=? 90) then c + 32 else c.

Definition take_sign (s : str) : bool * str :=
  match s with
  | 45 :: r => (true, r)
  | 43 :: r => (false, r)
  | _ => (false, s)
  end.

(** The leading ASCII digits of [s], as digit values, and what follows. *)
Fixpoint take_digits (s : str) : list N * str :=
  match s with
  | c :: s' =>
    if is_ascii_digit c
    then let (ds, r) := take_digits s' in ((c - 48) :: ds, r)
    else ([], s)
  | [] => ([], [])
  end.

Definition digits_value (ds : list N) : N :=
  fold_left (fun acc d => 10 * acc + d) ds 0.

Definition inf_or_nan (s : str) : option literal :=
  let (neg, r) := take_sign s in
  let w := map lower r in
  if str_eqb w (lit "inf") || str_eqb w (lit "infinity") then Some (LitInf neg)
  else if str_eqb w (lit "nan") then Some LitNan
  else None.

(** An exponent that is not followed by a digit is not read. *)
Definition take_exponent (s : str) : Z * str :=
  match s with
  | c :: r =>
    if lower c =? 101 then
      let (eneg, r1) := take_sign r in
      let (ds, r2) := take_digits r1 in
      match ds with
      | [] => (0%Z, s)
      | _ => ((if eneg then - Z.of_N (digits_value ds) else Z.of_N (digits_value ds))%Z, r2)
      end
    else (0%Z, s)
  | [] => (0%Z, [])
  end.

Definition decimal_number (s : str) : option literal :=
  let (neg, s1) := take_sign s in
  let (ip, s2) := take_digits s1 in
  let (fp, s3) := match s2 with
                  | 46 :: r => take_digits r
                  | _ => ([], s2)
                  end in
  match ip ++ fp with
  | [] => None
  | ds =>
    let (ex, s4) := take_exponent s3 in
    match s4 with
    | [] => Some (LitNum neg (digits_value ds) (ex - Z.of_nat (List.length fp)))
    | _ => None
    end
  end.

Definition float_syntax (s : str) : option literal :=
  let t := strip_ascii (map to_ascii s) in
  if underscores_ok 0 t then
    let t' := replace 95 [] t in
    match inf_or_nan t' with
    | Some l => Some l
    | None => decimal_number t'
    end
  else None.

(** *** The ['f'] presentation of a number, [f"{x:.{places}f}"]

    A number is seen through its exact value: of a finite one the sign
    and the magnitude [n / d].  The text is that value rounded to
    [places] decimals, halves to the even neighbour. *)

Inductive view : Type :=
  | VFin (neg : bool) (n : N) (d : positive)
  | VInf (neg : bool)
  | VNan.

Definition round_half_even (n : N) (d : positive) : N :=
  let q := n / Npos d in
  let r := n mod Npos d in
  match 2 * r ?= Npos d with
  | Lt => q
  | Eq => if N.even q then q else q + 1
  | Gt => q + 1
  end.

Fixpoint digits_from (fuel : nat) (n : N) (acc : str) : str :=
  match fuel with
  | O => acc
  | S fuel' =>
    let acc' := (48 + n mod 10) :: acc in
    if n / 10 =? 0 then acc' else digits_from fuel' (n / 10) acc'
  end.

(** [str(n)] for a natural number. *)
Definition decimal (n : N) : str := digits_from (S (N.to_nat (N.log2 n))) n [].

(** The last [w] decimal digits of [n], zero-padded. *)
Fixpoint fixed (w : nat) (n : N) : str :=
  match w with
  | O => []
  | S w' => fixed w' (n / 10) ++ [48 + n mod 10]
  end.

Definition sign_text (neg : bool) : str := if neg then [45] else [].

Definition format_f (v : view) (places : nat) : str :=
  match v with
  | VNan => lit "nan"
  | VInf neg => sign_text neg ++ lit "inf"
  | VFin neg n d =>
    let scale := 10 ^ N.of_nat places in
    let r := round_half_even (n * scale) d in
    sign_text neg ++ decimal (r / scale) ++
    match places with
    | O => []
    | S _ => 46 :: fixed places (r mod scale)
    end
  end.

(** *** Exceptions *)

Inductive exn : Type := ValueError | TypeError | ZeroDivisionError.

Inductive result (T : Type) : Type :=
  | Ok (x : T)
  | Raise (e : exn).

Arguments Ok {T} x.
Arguments Raise {T} e.

Definition bind {T U} (r : result T) (k : T -> result U) : result U :=
  match r with
  | Ok x => k x
  | Raise e => Raise e
  end.

End Py.

Import Py.

(** ** The line classifier (main.py, [clean_text]) *)

Definition page_marker : str := lit "--- Page".

Definition clean_headers : list str :=
  [lit "Relação Anual"; lit "COOPERATIVA"; lit "Rubrica"; lit "TRABALHADOR"; lit "Página"].

Definition month_header : str :=
  lit "JAN FEV MAR ABR MAI JUN JUL AGO SET OUT NOV DEZ TOTAL".

(** [any(header in line for header in headers)] *)
Definition any_header (headers : list str) (line : str) : bool :=
  existsb (fun header => contains header line) headers.

(** [r'\d{6}'] *)
Definition six_digits : re := exactly 6 is_digit.

Definition is_some {A} (o : option A) : bool :=
  match o with Some _ => true | None => false end.

Definition is_empty (s : str) : bool :=
  match s with [] => true | _ => false end.

(** The loop over the lines; [skip_until_next_person] is the flag the
    loop carries. *)
Fixpoint clean_lines (skip_until_next_person : bool) (lines : list str) : list str :=
  match lines with
  | [] => []
  | line :: rest =>
    if startswith page_marker line then
      clean_lines skip_until_next_person rest
    else if any_header clean_headers line then
      clean_lines skip_until_next_person rest
    else if startswith (lit "_") line || is_empty (strip line) then
      clean_lines skip_until_next_person rest
    else if contains month_header line then
      clean_lines skip_until_next_person rest
    else if is_empty (strip (replace 45 [] (strip line))) then
      clean_lines skip_until_next_person rest
    else if contains (lit "TOTALIZA") line then
      clean_lines true rest
    else
      let skip' :=
        if is_some (search six_digits line) && negb (startswith (lit "239") line)
        then false else skip_until_next_person in
      if skip' then clean_lines skip' rest
      else line :: clean_lines skip' rest
  end.

Definition clean_text (text : str) : str :=
  join nl (clean_lines false (split nl text)).


(** ** The block segmenter and field extractor (main.py, [extract_data_from_txt]) *)

(** A record is the dict the extractor builds; the four derived keys are
    absent until the aggregator writes them. *)
Record person (num : Type) : Type := mk_person {
  name : str;
  code : str;
  role : str;
  value : str;
  percentage : option str;
  percentage_float : option num;
  total : option str;
  total_float : option num
}.

Arguments mk_person {num}.
Arguments name {num}.
Arguments code {num}.
Arguments role {num}.
Arguments value {num}.
Arguments percentage {num}.
Arguments percentage_float {num}.
Arguments total {num}.
Arguments total_float {num}.

Definition extract_headers : list str :=
  [lit "Relação"; lit "COOPERATIVA"; lit "Rubrica"; lit "TRABALHADOR"; lit "Página"].

(** The pre-pass over the lines read from the file. *)
Fixpoint prepass (lines : list str) : list str :=
  match lines with
  | [] => []
  | line0 :: rest =>
    let line := strip line0 in
    if is_empty line || startswith (lit "_") line || startswith (lit "-") line then
      prepass rest
    else if any_header extract_headers line then
      prepass rest
    else line :: prepass rest
  end.

Infix ">>" := Seq (at level 61, right associativity).

(** [[A-Za-zÀ-ÖØ-öø-ÿ\s]] *)
Definition cls_name : char -> bool :=
  cls_or (cls_range 65 90) (cls_or (cls_range 97 122)
  (cls_or (cls_range 192 214) (cls_or (cls_range 216 246)
  (cls_or (cls_range 248 255) is_space)))).

(** [r'([A-Za-zÀ-ÖØ-öø-ÿ\s]+?)\s+(\d{6})\s+(.+)$'] *)
Definition person_pattern : re :=
  Group (plus_lazy cls_name) >> plus is_space >> Group (exactly 6 is_digit) >>
  plus is_space >> Group (plus cls_dot) >> Eol.

(** [[\d\.]] *)
Definition cls_digit_dot : char -> bool := cls_or is_digit (cls_is 46).

(** [r'.*\s+([\d\.]+,\d+)$'] *)
Definition value_pattern : re :=
  star cls_dot >> plus is_space >>
  Group (plus cls_digit_dot >> one 44 >> plus is_digit) >> Eol.

(** [match.group(k)], [k >= 1]. *)
Definition group (k : nat) (m : list str) : str := nth (k - 1) m [].

(** The [while] loop over the blocks: [i] is the cursor, [results] the
    records so far; every turn moves the cursor on, so [fuel] turns are
    enough when [fuel] is the number of lines. *)
Fixpoint blocks {num : Type} (fuel : nat) (cleaned_lines : list str) (i : nat)
    (results : list (person num)) : list (person num) :=
  match fuel with
  | O => results
  | S fuel' =>
    if (i <? List.length cleaned_lines - 2)%nat then
      let person_line := nth i cleaned_lines [] in
      let produtividade_line := nth (i + 1) cleaned_lines [] in
      match search person_pattern person_line with
      | Some person_match =>
        let name := strip (group 1 person_match) in
        let code := strip (group 2 person_match) in
        let role := strip (group 3 person_match) in
        match search value_pattern produtividade_line with
        | Some value_match =>
          let value := strip (group 1 value_match) in
          blocks fuel' cleaned_lines (i + 3)
            (results ++ [mk_person name code role value None None None None])
        | None => blocks fuel' cleaned_lines (i + 3) results
        end
      | None => blocks fuel' cleaned_lines (i + 1) results
      end
    else results
  end.

(** [lines] is what [file.readlines()] returned. *)
Definition extract_data_from_txt {num : Type} (lines : list str) : list (person num) :=
  let cleaned_lines := prepass lines in
  blocks (List.length cleaned_lines) cleaned_lines 0 [].

(** The positions the cursor takes while the loop runs. *)
Inductive cursor (cleaned_lines : list str) : nat -> Prop :=
  | cursor_start : cursor cleaned_lines 0
  | cursor_block i :
      cursor cleaned_lines i ->
      (i < List.length cleaned_lines - 2)%nat ->
      search person_pattern (nth i cleaned_lines []) <> None ->
      cursor cleaned_lines (i + 3)
  | cursor_noise i :
      cursor cleaned_lines i ->
      (i < List.length cleaned_lines - 2)%nat ->
      search person_pattern (nth i cleaned_lines []) = None ->
      cursor cleaned_lines (i + 1).

(** ** Numbers

    The aggregator is written once over the operations it uses on
    numbers.  [binary64] is the [float] of the interpreter (IEEE 754
    double precision, round to nearest even); [exact] is the same
    arithmetic without rounding, on rationals extended by the
    infinities and not-a-number. *)

Record arith : Type := {
  num : Type;
  of_literal : literal -> num;     (* the number a numeric text denotes *)
  add : num -> num -> num;
  mul : num -> num -> num;
  quot : num -> num -> num;        (* [x / y] for [y] other than zero *)
  is_zero : num -> bool;           (* [x == 0] *)
  view_of : num -> view
}.

Definition prec : Z := 53.
Definition emax : Z := 1024.

(** The double nearest to [n / d]. *)
Definition nearest (neg : bool) (n d : positive) : spec_float :=
  SFdiv prec emax (S754_finite neg n 0) (S754_finite false d 0).

Definition b64_of_literal (l : literal) : spec_float :=
  match l with
  | LitNan => S754_nan
  | LitInf neg => S754_infinity neg
  | LitNum neg N0 _ => S754_zero neg
  | LitNum neg (Npos m) e =>
    match e with
    | Z0 => nearest neg m 1
    | Zpos k => nearest neg (m * 10 ^ k) 1
    | Zneg k => nearest neg m (10 ^ k)
    end
  end.

Definition b64_is_zero (x : spec_float) : bool :=
  match x with S754_zero _ => true | _ => false end.

Definition b64_view (x : spec_float) : view :=
  match x with
  | S754_nan => VNan
  | S754_infinity neg => VInf neg
  | S754_zero neg => VFin neg 0 1
  | S754_finite neg m e =>
    match e with
    | Zneg k => VFin neg (Npos m) (2 ^ k)
    | Z0 => VFin neg (Npos m) 1
    | Zpos k => VFin neg (Npos (m * 2 ^ k)) 1
    end
  end.

Definition binary64 : arith := {|
  num := spec_float;
  of_literal := b64_of_literal;
  add := SFadd prec emax;
  mul := SFmul prec emax;
  quot := SFdiv prec emax;
  is_zero := b64_is_zero;
  view_of := b64_view
|}.

Inductive xrat : Type :=
  | Fin (q : Qc)
  | Inf (neg : bool)
  | Nan.

Definition Qc_is_zero (q : Qc) : bool := (Qnum (this q) =? 0)%Z.
Definition Qc_is_neg (q : Qc) : bool := (Qnum (this q) <? 0)%Z.

Definition xrat_of_literal (l : literal) : xrat :=
  match l with
  | LitNan => Nan
  | LitInf neg => Inf neg
  | LitNum neg m e =>
    Fin (Q2Qc (inject_Z (if neg then - Z.of_N m else Z.of_N m) * Qpower (10 # 1) e))
  end.

Definition xrat_add (x y : xrat) : xrat :=
  match x, y with
  | Nan, _ | _, Nan => Nan
  | Inf a, Inf b => if Bool.eqb a b then x else Nan
  | Inf _, Fin _ => x
  | Fin _, Inf _ => y
  | Fin a, Fin b => Fin (a + b)%Qc
  end.

Definition xrat_mul (x y : xrat) : xrat :=
  match x, y with
  | Nan, _ | _, Nan => Nan
  | Inf a, Inf b => Inf (xorb a b)
  | Inf a, Fin q | Fin q, Inf a =>
    if Qc_is_zero q then Nan else Inf (xorb a (Qc_is_neg q))
  | Fin a, Fin b => Fin (a * b)%Qc
  end.

Definition xrat_quot (x y : xrat) : xrat :=
  match x, y with
  | Nan, _ | _, Nan => Nan
  | Inf _, Inf _ => Nan
  | Inf a, Fin q => Inf (xorb a (Qc_is_neg q))
  | Fin _, Inf _ => Fin 0%Qc
  | Fin a, Fin b => Fin (a / b)%Qc
  end.

Definition xrat_is_zero (x : xrat) : bool :=
  match x with Fin q => Qc_is_zero q | _ => false end.

Definition xrat_view (x : xrat) : view :=
  match x with
  | Nan => VNan
  | Inf neg => VInf neg
  | Fin q => VFin (Qc_is_neg q) (Z.abs_N (Qnum (this q))) (Qden (this q))
  end.

Definition exact : arith := {|
  num := xrat;
  of_literal := xrat_of_literal;
  add := xrat_add;
  mul := xrat_mul;
  quot := xrat_quot;
  is_zero := xrat_is_zero;
  view_of := xrat_view
|}.

(** ** The aggregator (main.py, [calculate_total_value],
       [format_brazilian_number], [calculate_percentages_and_distribution]) *)

Section Aggregator.

Variable A : arith.

Definition zero : num A := of_literal A (LitNum false 0 0).       (* 0.0 *)
Definition hundred : num A := of_literal A (LitNum false 100 0).  (* 100 *)

(** [float(s)] *)
Definition py_float (s : str) : result (num A) :=
  match float_syntax s with
  | Some l => Ok (of_literal A l)
  | None => Raise ValueError
  end.

(** [x / y] *)
Definition py_div (x y : num A) : result (num A) :=
  if is_zero A y then Raise ZeroDivisionError else Ok (quot A x y).

(** [float(value.replace('.', '').replace(',', '.'))] *)
Definition locale_float (value : str) : result (num A) :=
  py_float (replace 44 [46] (replace 46 [] value)).

(** [item.get('value')] as a condition. *)
Definition truthy (s : str) : bool := negb (is_empty s).

Definition warning (item : person (num A)) : str :=
  lit "Warning: Could not convert value '" ++ value item ++
  lit "' to float for " ++ name item.

(** The loop of [calculate_total_value]: the running total and the
    lines printed so far. *)
Fixpoint total_loop (data : list (person (num A))) (total : num A) (printed : list str)
    : result (num A * list str) :=
  match data with
  | [] => Ok (total, printed)
  | item :: rest =>
    if truthy (value item) then
      match locale_float (value item) with
      | Ok value_float => total_loop rest (add A total value_float) printed
      | Raise ValueError | Raise TypeError =>
        total_loop rest total (printed ++ [warning item])
      | Raise e => Raise e
      end
    else total_loop rest total printed
  end.

Definition calculate_total_value (data : list (person (num A))) : result (num A * list str) :=
  total_loop data zero [].

(** The loop of [format_brazilian_number] over the reversed integer part. *)
Fixpoint group_loop (chars : str) (i : nat) (result : str) : str :=
  match chars with
  | [] => result
  | char :: rest =>
    let result := if (0 <? i)%nat && (i mod 3 =? 0)%nat then 46 :: result else result in
    group_loop rest (S i) (char :: result)
  end.

Definition format_brazilian_number (number : num A) (decimal_places : nat) : str :=
  let formatted := format_f (view_of A number) decimal_places in
  let parts := split 46 formatted in
  let integer_part := nth 0 parts [] in
  let decimal_part := if (1 <? List.length parts)%nat then nth 1 parts [] else [] in
  let integer_part :=
    if (3 <? List.length integer_part)%nat
    then group_loop (rev integer_part) 0 []
    else integer_part in
  if truthy decimal_part then integer_part ++ 44 :: decimal_part
  else integer_part.

(** The body of the [try]: the percentage and, with an amount, the share. *)
Definition shares (item : person (num A)) (total_value : num A)
    (distribution_amount : option (num A)) : result (num A * option (num A)) :=
  bind (locale_float (value item)) (fun value_float =>
  bind (py_div value_float total_value) (fun ratio =>
  let percentage := mul A ratio hundred in
  match distribution_amount with
  | Some amount =>
    bind (py_div percentage hundred) (fun part =>
    Ok (percentage, Some (mul A part amount)))
  | None => Ok (percentage, None)
  end)).

Definition enrich (total_value : num A) (distribution_amount : option (num A))
    (item : person (num A)) : result (person (num A)) :=
  if truthy (value item) then
    match shares item total_value distribution_amount with
    | Ok (percentage, distribution) =>
      Ok (mk_person (name item) (code item) (role item) (value item)
            (Some (format_brazilian_number percentage 6)) (Some percentage)
            (match distribution with
             | Some d => Some (format_brazilian_number d 2)
             | None => total item
             end)
            (match distribution with
             | Some d => Some d
             | None => total_float item
             end))
    | Raise ValueError | Raise TypeError | Raise ZeroDivisionError =>
      Ok (mk_person (name item) (code item) (role item) (value item)
            (Some (lit "0,000000")) (Some zero)
            (match distribution_amount with
             | Some _ => Some (lit "0,00")
             | None => total item
             end)
            (match distribution_amount with
             | Some _ => Some zero
             | None => total_float item
             end))
    end
  else Ok item.

Fixpoint enrich_all (total_value : num A) (distribution_amount : option (num A))
    (data : list (person (num A))) : result (list (person (num A))) :=
  match data with
  | [] => Ok []
  | item :: rest =>
    bind (enrich total_value distribution_amount item) (fun item' =>
    bind (enrich_all total_value distribution_amount rest) (fun rest' =>
    Ok (item' :: rest')))
  end.

Definition calculate_percentages_and_distribution (data : list (person (num A)))
    (distribution_amount : option (num A)) : result (list (person (num A))) :=
  match data with
  | [] => Ok data
  | _ =>
    bind (calculate_total_value data) (fun tv =>
    enrich_all (fst tv) distribution_amount data)
  end.

End Aggregator.

(** ** The text of a document (main.py, [extract_text_from_pdf], [process_pdf])

    [pages] holds, page by page, what [page.extract_text()] returns:
    [None] or a text. *)

(** [f"--- Page {page_num + 1} ---\n{text}\n"] *)
Definition page_entry (page_num : nat) (text : str) : str :=
  lit "--- Page " ++ decimal (N.of_nat (page_num + 1)) ++ lit " ---" ++ nl :: text ++ [nl].

(** The loop over [enumerate(pdf.pages)]. *)
Fixpoint all_text (page_num : nat) (pages : list (option str)) : list str :=
  match pages with
  | [] => []
  | page :: rest =>
    match page with
    | Some (c :: text) =>
      page_entry page_num (c :: text) :: all_text (S page_num) rest
    | _ => all_text (S page_num) rest
    end
  end.

Definition extract_text_from_pdf (pages : list (option str)) : str :=
  join nl (all_text 0 pages).

(** The text [process_pdf] saves. *)
Definition process_pdf (pages : list (option str)) (clean no_page_markers : bool) : str :=
  let text := extract_text_from_pdf pages in
  if clean then clean_text text
  else if no_page_markers then
    join nl (filter (fun line => negb (startswith page_marker line)) (split nl text))
  else text.

(** ** Reading the text file back (main.py, [extract_data_from_txt], lines 172-173)

    [file.readlines()] of a file opened in text mode: line ends are
    brought to a line feed, and every line keeps its own. *)

Fixpoint universal_newlines (s : str) : str :=
  match s with
  | [] => []
  | c :: r =>
    if c =? 13 then
      match r with
      | d :: r' => if d =? 10 then 10 :: universal_newlines r'
                   else 10 :: universal_newlines r
      | [] => [10]
      end
    else c :: universal_newlines r
  end.

Fixpoint lines_from (cur : str) (s : str) : list str :=
  match s with
  | [] => if is_empty cur then [] else [rev cur]
  | c :: r =>
    if c =? nl then rev (c :: cur) :: lines_from [] r
    else lines_from (c :: cur) r
  end.

Definition readlines (content : str) : list str :=
  lines_from [] (universal_newlines content).

(** ** The distribution amount and the table (main.py, [parse_amount], [save_to_csv]) *)

Section Table.

Variable A : arith.

(** [parse_amount]: the amount, if any, and the lines printed. *)
Definition parse_amount (amount_str : option str) : result (option (num A) * list str) :=
  match amount_str with
  | None => Ok (None, [])
  | Some s =>
    let amount_str := replace 44 [46] (replace 46 [] s) in
    match py_float A amount_str with
    | Ok x => Ok (Some x, [])
    | Raise ValueError =>
      Ok (None, [lit "Warning: Could not parse amount '" ++ amount_str ++ lit "'. Using None."])
    | Raise e => Raise e
    end
  end.

(** The columns of the table. *)
Definition fieldnames (distribution_amount : option (num A)) : list string :=
  match distribution_amount with
  | Some _ => ["name"; "code"; "role"; "value"; "percentage"; "total"]%string
  | None => ["name"; "code"; "role"; "value"; "percentage"]%string
  end.

(** [item[field]] for a [field] that is [in item]. *)
Definition get (item : person (num A)) (field : string) : option str :=
  if String.eqb field "name" then Some (name item)
  else if String.eqb field "code" then Some (code item)
  else if String.eqb field "role" then Some (role item)
  else if String.eqb field "value" then Some (value item)
  else if String.eqb field "percentage" then percentage item
  else if String.eqb field "total" then total item
  else None.

(** The row of a record: the columns it has, in the order of the columns. *)
Definition csv_item (fields : list string) (item : person (num A)) : list (string * str) :=
  flat_map (fun field => match get item field with
                         | Some v => [(field, v)]
                         | None => []
                         end) fields.

(** [save_to_csv]: the columns and the rows handed to the writer, or
    [None] when there is no record and nothing is written. *)
Definition save_to_csv (data : list (person (num A))) (distribution_amount : option (num A))
    : result (option (list string * list (list (string * str)))) :=
  match data with
  | [] => Ok None
  | _ =>
    bind (calculate_percentages_and_distribution A data distribution_amount) (fun data =>
    let fields := fieldnames distribution_amount in
    let csv_data := map (csv_item fields) data in
    bind (calculate_total_value A data) (fun _ =>
    Ok (Some (fields, csv_data))))
  end.

End Table.

(** ** Notions used in the statements *)

(** The tests of [clean_text] that drop a line whatever the flag is. *)
Definition dropped (line : str) : bool :=
  startswith page_marker line
  || any_header clean_headers line
  || (startswith (lit "_") line || is_empty (strip line))
  || contains month_header line
  || is_empty (strip (replace 45 [] (strip line)))
  || contains (lit "TOTALIZA") line.

(** What a pattern means: [denotes r s caps rest] when [r] matches the
    part of [s] in front of [rest] and captures [caps]. *)
Fixpoint denotes (r : re) (s : str) (caps : list str) (rest : str) : Prop :=
  match r with
  | Rep cls lo hi _ =>
    exists p, s = p ++ rest /\ forallb cls p = true /\ (lo <= List.length p)%nat
              /\ match hi with Some h => (List.length p <= h)%nat | None => True end
              /\ caps = []
  | Seq r1 r2 =>
    exists c1 mid c2, denotes r1 s c1 mid /\ denotes r2 mid c2 rest /\ caps = c1 ++ c2
  | Group r1 =>
    exists p c1, denotes r1 s c1 rest /\ s = p ++ rest /\ caps = p :: c1
  | Eol => rest = s /\ at_eol s = true /\ caps = []
  end.

(** A number in locale format: digits and dots, a comma, digits. *)
Definition locale_number (v : str) : Prop :=
  exists a b, v = a ++ 44 :: b /\ a <> [] /\ b <> []
              /\ forallb cls_digit_dot a = true /\ forallb is_digit b = true.

(** The record the loop builds from an identity match and a value. *)
Definition new_person {num : Type} (person_match : list str) (v : str) : person num :=
  mk_person (strip (group 1 person_match)) (strip (group 2 person_match))
            (strip (group 3 person_match)) v None None None None.

(** The characters of an integer part in clusters of three, counted
    from the right: a character joins the first cluster while that one
    has room, and opens a new one otherwise. *)
Fixpoint clusters (s : str) : list str :=
  match s with
  | [] => []
  | c :: t =>
    match clusters t with
    | [] => [[c]]
    | f :: others =>
      if (List.length f <? 3)%nat then (c :: f) :: others else [c] :: f :: others
    end
  end.

(** One to three characters first, then three each. *)
Definition grouped_shape (cs : list str) : Prop :=
  match cs with
  | [] => False
  | f :: others =>
    (1 <= List.length f <= 3)%nat /\ Forall (fun c => List.length c = 3%nat) others
  end.

(** [sum(xs)], adding from the left, starting from 0. *)
Definition sum (A : arith) (xs : list (num A)) : num A :=
  fold_left (add A) xs (zero A).



(** The numbers the value fields of the records convert to. *)
Definition parsed_values (A : arith) (data : list (person (num A))) : list (num A) :=
  flat_map (fun item => match locale_float A (value item) with
                        | Ok x => [x]
                        | Raise _ => []
                        end) data.

(** [|x - target| <= tol] for a finite [x], on exact values. *)
Definition near (v : view) (target tol : Q) : bool :=
  match v with
  | VFin neg n d =>
    let x := (if neg then - Z.of_N n else Z.of_N n)%Z # d in
    Qle_bool (Qabs (x - target)) tol
  | _ => false
  end.

(** The derived fields as the fallback of the aggregator writes them. *)
Definition zero_fields (A : arith) (distribution_amount : option (num A))
    (item : person (num A)) : Prop :=
  percentage item = Some (lit "0,000000")
  /\ percentage_float item = Some (zero A)
  /\ (distribution_amount <> None ->
      total item = Some (lit "0,00") /\ total_float item = Some (zero A)).

(** [item'] is [item] after the fallback: the four fields of the
    extractor are kept, a record with a value gets the all-zero derived
    fields, and a record with an empty value is left as it is. *)
Definition zeroed (A : arith) (distribution_amount : option (num A))
    (item item' : person (num A)) : Prop :=
  name item' = name item /\ code item' = code item
  /\ role item' = role item /\ value item' = value item
  /\ (truthy (value item) = true -> zero_fields A distribution_amount item')
  /\ (truthy (value item) = false -> item' = item).


(** ** Notions used in the statements of the further properties *)

(** [a] is [b] with some elements left out. *)
Inductive subsequence {X : Type} : list X -> list X -> Prop :=
  | subsequence_nil : subsequence [] []
  | subsequence_keep x a b : subsequence a b -> subsequence (x :: a) (x :: b)
  | subsequence_drop x a b : subsequence a b -> subsequence a (x :: b).

(** The tests of [clean_text] that come before the subtotal test. *)
Definition boilerplate (line : str) : bool :=
  startswith page_marker line
  || any_header clean_headers line
  || (startswith (lit "_") line || is_empty (strip line))
  || contains month_header line
  || is_empty (strip (replace 45 [] (strip line))).

(** A line that sets the flag of [clean_text], and a line that clears it. *)
Definition starts_skip (line : str) : bool :=
  negb (boilerplate line) && contains (lit "TOTALIZA") line.

Definition ends_skip (line : str) : bool :=
  negb (dropped line) && is_some (search six_digits line)
  && negb (startswith (lit "239") line).

(** The texts of the pages that have one. *)
Definition page_contents (pages : list (option str)) : list str :=
  flat_map (fun page => match page with
                        | Some (c :: text) => [c :: text]
                        | _ => []
                        end) pages.

(** The digit values of a text of ASCII digits, and the number they spell. *)
Definition digit_values (s : str) : list N := map (fun c => c - 48) s.

(** The four fields the extractor writes. *)
Definition same_identity {T : Type} (item item' : person T) : Prop :=
  name item' = name item /\ code item' = code item
  /\ role item' = role item /\ value item' = value item.

(** [item'] is [item] after the aggregator: the four fields of the
    extractor are kept; a record with a value has a percentage and,
    when an amount is supplied, a share; a record with an empty value
    is left as it is; without an amount the share fields are not
    touched. *)
Definition enriched (A : arith) (distribution_amount : option (num A))
    (item item' : person (num A)) : Prop :=
  same_identity item item'
  /\ (truthy (value item) = true ->
      percentage item' <> None /\ percentage_float item' <> None
      /\ (distribution_amount <> None ->
          total item' <> None /\ total_float item' <> None))
  /\ (truthy (value item) = false -> item' = item)
  /\ (distribution_amount = None ->
      total item' = total item /\ total_float item' = total_float item).

(** The records whose value is not empty and does not convert. *)
Definition unconvertible (A : arith) (item : person (num A)) : bool :=
  truthy (value item) &&
  match locale_float A (value item) with Ok _ => false | Raise _ => true end.

(** A line the pre-pass of the extractor keeps. *)
Definition kept_line (line : str) : Prop :=
  line <> [] /\ strip line = line
  /\ startswith (lit "_") line = false /\ startswith (lit "-") line = false
  /\ any_header extract_headers line = false.

(** A record as the extractor builds it. *)
Definition record_shape {T : Type} (item : person T) : Prop :=
  List.length (code item) = 6%nat /\ forallb is_digit (code item) = true
  /\ forallb cls_name (name item) = true /\ strip (name item) = name item
  /\ role item <> [] /\ strip (role item) = role item
  /\ locale_number (value item)
  /\ percentage item = None /\ percentage_float item = None
  /\ total item = None /\ total_float item = None.

(** * Properties *)

(** ** Strings *)

Lemma split_from_app (sep : char) (a : str) :
  forall cur rest, ~ In sep a ->
  split_from sep cur (a ++ rest) = split_from sep (rev a ++ cur) rest.
Proof.
  induction a as [|c a IH]; intros cur rest Hn; simpl.
  - reflexivity.
  - destruct (N.eqb_spec c sep) as [->|Hc].
    + exfalso. apply Hn. now left.
    + rewrite IH by (intro H; apply Hn; now right).
      now rewrite <- app_assoc.
Qed.

Lemma split_from_nil_end (sep : char) (a cur : str) :
  ~ In sep a -> split_from sep cur a = [rev cur ++ a].
Proof.
  intros Hn. rewrite <- (app_nil_r a) at 1.
  rewrite split_from_app by assumption. simpl.
  now rewrite rev_app_distr, rev_involutive.
Qed.

Lemma split_join (sep : char) (parts : list str) :
  parts <> [] -> Forall (fun p => ~ In sep p) parts ->
  split sep (join sep parts) = parts.
Proof.
  unfold split. induction parts as [|p rest IH]; intros Hne Hall.
  - contradiction.
  - inversion Hall as [|? ? Hp Hrest]; subst.
    destruct rest as [|q rest].
    + simpl. now rewrite split_from_nil_end.
    + change (join sep (p :: q :: rest)) with (p ++ sep :: join sep (q :: rest)).
      rewrite split_from_app by assumption.
      simpl. rewrite N.eqb_refl.
      rewrite app_nil_r, rev_involutive. f_equal.
      apply IH; [discriminate | assumption].
Qed.

Lemma split_from_one_line (sep : char) (s : str) :
  forall cur, ~ In sep cur -> Forall (fun p => ~ In sep p) (split_from sep cur s).
Proof.
  induction s as [|c s IH]; intros cur Hcur; simpl.
  - constructor; [|constructor]. now rewrite <- in_rev.
  - destruct (N.eqb_spec c sep) as [->|Hc].
    + constructor; [now rewrite <- in_rev | apply IH; intros []].
    + apply IH. intros [H|H]; [now apply Hc | now apply Hcur].
Qed.

(** ** The line classifier *)

Lemma clean_lines_cons (skip : bool) (line : str) (rest : list str) :
  clean_lines skip (line :: rest) =
  if startswith page_marker line then clean_lines skip rest
  else if any_header clean_headers line then clean_lines skip rest
  else if startswith (lit "_") line || is_empty (strip line) then clean_lines skip rest
  else if contains month_header line then clean_lines skip rest
  else if is_empty (strip (replace 45 [] (strip line))) then clean_lines skip rest
  else if contains (lit "TOTALIZA") line then clean_lines true rest
  else
    let skip' :=
      if is_some (search six_digits line) && negb (startswith (lit "239") line)
      then false else skip in
    if skip' then clean_lines skip' rest else line :: clean_lines skip' rest.
Proof. reflexivity. Qed.

Lemma clean_lines_kept (lines : list str) :
  forall skip, Forall (fun l => dropped l = false /\ In l lines) (clean_lines skip lines).
Proof.
  induction lines as [|line rest IH]; intros skip.
  - constructor.
  - assert (Hrest : forall s, Forall (fun l => dropped l = false /\ In l (line :: rest))
                               (clean_lines s rest)).
    { intros s. eapply Forall_impl; [|apply IH]. intros l [H1 H2]. split; [assumption|now right]. }
    rewrite clean_lines_cons.
    destruct (startswith page_marker line) eqn:E1; [apply Hrest|].
    destruct (any_header clean_headers line) eqn:E2; [apply Hrest|].
    destruct (startswith (lit "_") line || is_empty (strip line)) eqn:E3; [apply Hrest|].
    destruct (contains month_header line) eqn:E4; [apply Hrest|].
    destruct (is_empty (strip (replace 45 [] (strip line)))) eqn:E5; [apply Hrest|].
    destruct (contains (lit "TOTALIZA") line) eqn:E6; [apply Hrest|].
    cbv zeta.
    match goal with |- context [if ?b then false else skip] => destruct b end;
      [|destruct skip]; try apply Hrest.
    all: constructor; [|apply Hrest].
    all: split; [|now left].
    all: unfold dropped; now rewrite E1, E2, E3, E4, E5, E6.
Qed.

Lemma clean_lines_fixed (lines : list str) :
  Forall (fun l => dropped l = false) lines -> clean_lines false lines = lines.
Proof.
  induction lines as [|line rest IH]; intros Hall.
  - reflexivity.
  - inversion Hall as [|? ? Hd Hrest]; subst.
    rewrite clean_lines_cons.
    unfold dropped in Hd.
    repeat (apply orb_false_elim in Hd; destruct Hd as [Hd ?]).
    repeat match goal with H : _ = false |- _ => rewrite H; clear H end.
    cbv zeta.
    match goal with |- context [if ?b then false else false] => destruct b end;
      now rewrite IH.
Qed.

(** C3. On the lines ["TOTALIZACAO X"; "239001 foo"; "123456 Jane Doe
    ANALISTA"; "100,50"; "extra"] the line classifier outputs exactly
    the last three lines: the subtotal marker sets the flag and is
    dropped, the line starting with 239 is still skipped, and the line
    with the six digits 123456 clears the flag and is kept. *)
Theorem clean_text_skip_section :
  clean_text (join nl [lit "TOTALIZACAO X"; lit "239001 foo";
                       lit "123456 Jane Doe ANALISTA"; lit "100,50"; lit "extra"])
  = join nl [lit "123456 Jane Doe ANALISTA"; lit "100,50"; lit "extra"]
  /\ clean_lines false [lit "TOTALIZACAO X"] = []
  /\ clean_lines true [lit "239001 foo"] = []
  /\ clean_lines true [lit "123456 Jane Doe ANALISTA"; lit "100,50"; lit "extra"]
     = [lit "123456 Jane Doe ANALISTA"; lit "100,50"; lit "extra"].
Proof. repeat split; vm_compute; reflexivity. Qed.

(** C4. The line classifier is idempotent: for every text [t],
    [clean_text (clean_text t) = clean_text t]. *)
Theorem clean_text_idempotent (t : str) :
  clean_text (clean_text t) = clean_text t.
Proof.
  unfold clean_text.
  pose proof (clean_lines_kept (split nl t) false) as Hk.
  destruct (clean_lines false (split nl t)) as [|l ls] eqn:E.
  - reflexivity.
  - rewrite split_join.
    + rewrite clean_lines_fixed; [reflexivity|].
      eapply Forall_impl; [|exact Hk]. now intros a [Ha _].
    + discriminate.
    + eapply Forall_impl; [|exact Hk]. intros a [_ Ha].
      pose proof (split_from_one_line nl t [] (fun x => x)) as Hs.
      rewrite Forall_forall in Hs. now apply Hs.
Qed.

(** ** Boilerplate phrases of the two components *)

Lemma startswith_iff (p s : str) :
  startswith p s = true <-> exists post, s = p ++ post.
Proof.
  revert s. induction p as [|x p IH]; intros s; simpl.
  - split; [intros _; now exists s | reflexivity].
  - destruct s as [|y s].
    + split; [discriminate | intros [post H]; discriminate].
    + rewrite andb_true_iff, N.eqb_eq, IH. split.
      * intros [-> [post ->]]. now exists post.
      * intros [post H]. injection H as -> ->. split; [reflexivity | now exists post].
Qed.

Lemma contains_iff (sub s : str) :
  contains sub s = true <-> exists pre post, s = pre ++ sub ++ post.
Proof.
  induction s as [|c s IH].
  - simpl. rewrite orb_false_r, startswith_iff. split.
    + intros [post H]. now exists [], post.
    + intros [pre [post H]]. destruct pre; [now exists post|discriminate].
  - change (contains sub (c :: s)) with (startswith sub (c :: s) || contains sub s).
    rewrite orb_true_iff, startswith_iff, IH. split.
    + intros [[post H]|[pre [post H]]].
      * now exists [], post.
      * exists (c :: pre), post. now rewrite H.
    + intros [pre [post H]]. destruct pre as [|x pre].
      * left. now exists post.
      * right. injection H as -> ->. now exists pre, post.
Qed.

Lemma contains_longer (a b s : str) :
  contains (a ++ b) s = true -> contains a s = true.
Proof.
  rewrite !contains_iff. intros [pre [post ->]].
  exists pre, (b ++ post). now rewrite <- app_assoc.
Qed.

Lemma lstrip_keeps (c : char) (h post : str) :
  is_space c = false ->
  forall pre, exists pre', lstrip (pre ++ (c :: h) ++ post) = pre' ++ (c :: h) ++ post.
Proof.
  intros Hc. induction pre as [|x pre IH].
  - exists []. simpl. now rewrite Hc.
  - change (lstrip ((x :: pre) ++ (c :: h) ++ post))
      with (if is_space x then lstrip (pre ++ (c :: h) ++ post)
            else (x :: pre) ++ (c :: h) ++ post).
    destruct (is_space x); [exact IH | now exists (x :: pre)].
Qed.

Lemma contains_strip (h l : str) (c d : char) (h1 h2 : str) :
  h = c :: h1 -> rev h = d :: h2 -> is_space c = false -> is_space d = false ->
  contains h l = true -> contains h (strip l) = true.
Proof.
  intros Hh Hr Hc Hd. rewrite !contains_iff. intros [pre [post ->]].
  unfold strip, rstrip.
  destruct (lstrip_keeps c h1 post Hc pre) as [pre' E]. rewrite <- Hh in E. rewrite E.
  rewrite !rev_app_distr, Hr, <- app_assoc.
  destruct (lstrip_keeps d h2 (rev pre') Hd (rev post)) as [post' E']. rewrite E'.
  rewrite <- Hr, !rev_app_distr, !rev_involutive, <- app_assoc.
  now exists pre', (rev post').
Qed.

Lemma any_header_strip (headers : list str) (l : str) :
  Forall (fun h => exists c h1 d h2, h = c :: h1 /\ rev h = d :: h2
                   /\ is_space c = false /\ is_space d = false) headers ->
  any_header headers l = true -> any_header headers (strip l) = true.
Proof.
  unfold any_header. rewrite !existsb_exists, Forall_forall.
  intros Hall [h [Hin Hc]]. exists h. split; [assumption|].
  destruct (Hall h Hin) as (c & h1 & d & h2 & E1 & E2 & E3 & E4).
  now apply (contains_strip h l c d h1 h2).
Qed.

Lemma extract_headers_trimmed :
  Forall (fun h => exists c h1 d h2, h = c :: h1 /\ rev h = d :: h2
                   /\ is_space c = false /\ is_space d = false) extract_headers.
Proof.
  unfold extract_headers.
  repeat (constructor; [do 4 eexists; repeat split; vm_compute; reflexivity|]).
  constructor.
Qed.

(** C9, as the code has it.  The boilerplate rule of the extractor's
    pre-pass drops a line exactly when the classifier's rule drops it or
    the line contains "Relação": the two phrase lists agree except for
    the first phrase, where the classifier has the longer "Relação
    Anual".  So every line the classifier's rule drops is also dropped
    by the rule of the pre-pass, on the line as it is and on the
    stripped line the pre-pass looks at. *)
Theorem classifier_boilerplate_in_extractor (line : str) :
  any_header extract_headers line
    = any_header clean_headers line || contains (lit "Relação") line
  /\ (any_header clean_headers line = true ->
      any_header extract_headers line = true
      /\ any_header extract_headers (strip line) = true).
Proof.
  assert (E : any_header extract_headers line
              = any_header clean_headers line || contains (lit "Relação") line).
  { unfold any_header, clean_headers, extract_headers. cbn [existsb].
    destruct (contains (lit "Relação") line) eqn:C.
    - now rewrite orb_true_r.
    - destruct (contains (lit "Relação Anual") line) eqn:C'.
      + apply (contains_longer (lit "Relação") (lit " Anual")) in C'. congruence.
      + repeat match goal with
               | |- context [contains ?h line] => destruct (contains h line)
               end; reflexivity. }
  split; [exact E|].
  intros H.
  assert (H' : any_header extract_headers line = true) by (now rewrite E, H).
  split; [exact H'|].
  apply any_header_strip; [apply extract_headers_trimmed | exact H'].
Qed.

Lemma classifier_boilerplate_in_extractor_witness :
  any_header clean_headers (lit "Relação Anual de 2024") = true
  /\ any_header extract_headers (lit "Relação Anual de 2024") = true
  /\ any_header extract_headers (strip (lit "Relação Anual de 2024")) = true.
Proof.
  split; [vm_compute; reflexivity|].
  apply (proj2 (classifier_boilerplate_in_extractor (lit "Relação Anual de 2024"))).
  vm_compute; reflexivity.
Defined.

(** C9, as the claim has it, fails: the line "Relação Mensal" contains
    the extractor's phrase "Relação" and none of the classifier's, so
    the pre-pass drops it and the classifier keeps it. *)
Lemma boilerplate_filters_differ :
  any_header extract_headers (lit "Relação Mensal")
    <> any_header clean_headers (lit "Relação Mensal")
  /\ prepass [lit "Relação Mensal"] = []
  /\ clean_lines false [lit "Relação Mensal"] = [lit "Relação Mensal"].
Proof. repeat split; vm_compute; [discriminate|reflexivity..]. Qed.

(** ** The matcher against the meaning of patterns *)

Section RegexFacts.

Local Open Scope nat_scope.

Lemma run_le_length (cls : char -> bool) (s : str) :
  forall hi, run cls hi s <= List.length s.
Proof.
  induction s as [|c s IH]; intros hi.
  - destruct hi as [[|h]|]; simpl; lia.
  - destruct hi as [[|h]|]; simpl; try lia.
    + destruct (cls c); [specialize (IH (Some h)); simpl in IH; lia | lia].
    + destruct (cls c); [specialize (IH None); simpl in IH; lia | lia].
Qed.

Lemma run_bounded (cls : char -> bool) (s : str) :
  forall h, run cls (Some h) s <= h.
Proof.
  induction s as [|c s IH]; intros h.
  - destruct h; simpl; lia.
  - destruct h as [|h]; simpl; [lia|].
    destruct (cls c); [specialize (IH h); lia | lia].
Qed.

Lemma run_firstn (cls : char -> bool) (s : str) :
  forall hi n, n <= run cls hi s -> forallb cls (firstn n s) = true.
Proof.
  induction s as [|c s IH]; intros hi n Hn.
  - now rewrite firstn_nil.
  - destruct n as [|n]; [reflexivity|].
    destruct hi as [[|h]|]; simpl in Hn; try lia.
    + destruct (cls c) eqn:E; [|lia]. simpl. rewrite E. apply (IH (Some h)). simpl. lia.
    + destruct (cls c) eqn:E; [|lia]. simpl. rewrite E. apply (IH None). simpl. lia.
Qed.

Lemma run_reaches (cls : char -> bool) (p rest : str) :
  forallb cls p = true ->
  forall hi, match hi with Some h => List.length p <= h | None => True end ->
  List.length p <= run cls hi (p ++ rest).
Proof.
  induction p as [|c p IH]; intros Hp hi Hh.
  - simpl. lia.
  - simpl in Hp. apply andb_true_iff in Hp. destruct Hp as [Hc Hp].
    destruct hi as [[|h]|]; simpl in Hh; try lia.
    + simpl. rewrite Hc. specialize (IH Hp (Some h)). simpl in IH. lia.
    + simpl. rewrite Hc. specialize (IH Hp None). simpl in IH. lia.
Qed.

Lemma in_counts (lo mx : nat) (greedy : bool) (n : nat) :
  In n (counts lo mx greedy) <-> lo <= n <= mx.
Proof.
  unfold counts. destruct greedy; [rewrite <- in_rev|]; rewrite in_seq; lia.
Qed.

Lemma denotes_suffix (r : re) :
  forall s caps rest, denotes r s caps rest -> exists p, s = p ++ rest.
Proof.
  induction r as [cls lo hi g|r1 IH1 r2 IH2|r1 IH1|]; intros s caps rest H; simpl in H.
  - destruct H as (p & E & _). now exists p.
  - destruct H as (c1 & mid & c2 & H1 & H2 & _).
    destruct (IH1 _ _ _ H1) as [p1 ->]. destruct (IH2 _ _ _ H2) as [p2 ->].
    exists (p1 ++ p2). now rewrite <- app_assoc.
  - destruct H as (p & c1 & _ & E & _). now exists p.
  - destruct H as (-> & _). now exists [].
Qed.

Lemma firstn_prefix (p rest : str) :
  firstn (List.length (p ++ rest) - List.length rest) (p ++ rest) = p.
Proof.
  rewrite length_app.
  replace (List.length p + List.length rest - List.length rest) with (List.length p + 0) by lia.
  rewrite firstn_app_2. simpl. apply app_nil_r.
Qed.

Lemma matches_sound (r : re) :
  forall s caps rest, In (caps, rest) (matches r s) -> denotes r s caps rest.
Proof.
  induction r as [cls lo hi g|r1 IH1 r2 IH2|r1 IH1|]; intros s caps rest H; simpl in H |- *.
  - apply in_map_iff in H. destruct H as (n & E & Hn). injection E as <- <-.
    apply in_counts in Hn. exists (firstn n s).
    pose proof (run_le_length cls s hi) as Hl.
    repeat split.
    + now rewrite firstn_skipn.
    + apply (run_firstn cls s hi). lia.
    + rewrite length_firstn. lia.
    + destruct hi as [h|]; [|exact I].
      pose proof (run_bounded cls s h). rewrite length_firstn. lia.
  - apply in_flat_map in H. destruct H as ([c1 mid] & H1 & H2).
    apply in_map_iff in H2. destruct H2 as ([c2 rest'] & E & H2).
    simpl in E. injection E as <- <-.
    exists c1, mid, c2. repeat split; [now apply IH1 | now apply IH2].
  - apply in_map_iff in H. destruct H as ([c1 rest'] & E & H1).
    simpl in E. injection E as <- <-.
    apply IH1 in H1. destruct (denotes_suffix _ _ _ _ H1) as [p ->].
    exists p, c1. repeat split; [assumption|].
    now rewrite firstn_prefix.
  - destruct (at_eol s) eqn:E; [|contradiction].
    destruct H as [H|[]]. injection H as <- <-. now repeat split.
Qed.

Lemma matches_complete (r : re) :
  forall s caps rest, denotes r s caps rest -> In (caps, rest) (matches r s).
Proof.
  induction r as [cls lo hi g|r1 IH1 r2 IH2|r1 IH1|]; intros s caps rest H; simpl in H |- *.
  - destruct H as (p & -> & Hp & Hlo & Hhi & ->).
    apply in_map_iff. exists (List.length p). split.
    + f_equal. rewrite skipn_app, skipn_all, Nat.sub_diag. reflexivity.
    + apply in_counts. split; [assumption | now apply run_reaches].
  - destruct H as (c1 & mid & c2 & H1 & H2 & ->).
    apply in_flat_map. exists (c1, mid). split; [now apply IH1|].
    apply in_map_iff. exists (c2, rest). split; [reflexivity | now apply IH2].
  - destruct H as (p & c1 & H1 & -> & ->).
    apply in_map_iff. exists (c1, rest). split; [|now apply IH1].
    simpl. now rewrite firstn_prefix.
  - destruct H as (-> & E & ->). rewrite E. now left.
Qed.

(** [search] returns the first match of the leftmost position that has one. *)
Lemma search_some (r : re) (s : str) :
  forall caps, search r s = Some caps ->
  exists pre s' rest, s = pre ++ s' /\ denotes r s' caps rest.
Proof.
  induction s as [|c s IH]; intros caps H; simpl in H.
  - destruct (matches r []) as [|[c1 rest] ms] eqn:E; [discriminate|].
    injection H as <-. exists [], [], rest. split; [reflexivity|].
    apply matches_sound. rewrite E. now left.
  - destruct (matches r (c :: s)) as [|[c1 rest] ms] eqn:E.
    + destruct (IH _ H) as (pre & s' & rest & -> & Hd).
      now exists (c :: pre), s', rest.
    + injection H as <-. exists [], (c :: s), rest. split; [reflexivity|].
      apply matches_sound. rewrite E. now left.
Qed.

Lemma search_finds (r : re) (pre s' : str) (caps : list str) (rest : str) :
  denotes r s' caps rest -> search r (pre ++ s') <> None.
Proof.
  intros Hd. apply matches_complete in Hd.
  induction pre as [|c pre IH].
  - simpl. destruct s' as [|c s']; simpl;
      (destruct (matches r _) as [|m ms]; [contradiction|discriminate]).
  - change (search r ((c :: pre) ++ s')) with
      (match matches r (c :: pre ++ s') with
       | m :: _ => Some (fst m)
       | [] => search r (pre ++ s')
       end).
    destruct (matches r (c :: pre ++ s')); [exact IH | discriminate].
Qed.

End RegexFacts.

(** ** Character classes *)

Lemma space_not_digit (c : char) : is_space c = true -> is_digit c = false.
Proof.
  unfold is_space. rewrite existsb_exists. intros [x [Hin E]].
  apply N.eqb_eq in E. subst x. unfold space_chars in Hin. simpl in Hin.
  repeat (destruct Hin as [<-|Hin]; [vm_compute; reflexivity|]).
  contradiction.
Qed.

Lemma digit_not_space (c : char) : is_digit c = true -> is_space c = false.
Proof.
  intros H. destruct (is_space c) eqn:E; [|reflexivity].
  apply space_not_digit in E. congruence.
Qed.

Lemma decimal_value_run (c d : N) :
  decimal_value c = Some d ->
  exists z, In z decimal_zeros /\ z <= c /\ c < z + 10 /\ d = c - z.
Proof.
  unfold decimal_value.
  destruct (find (fun z => (z <=? c) && (c <? z + 10)) decimal_zeros) as [z|] eqn:E;
    [|discriminate].
  intros H. injection H as <-. apply find_some in E. destruct E as [Hin Hz].
  apply andb_true_iff in Hz. destruct Hz as [H1 H2].
  apply N.leb_le in H1. apply N.ltb_lt in H2. now exists z.
Qed.

Lemma decimal_value_small (c d : N) : decimal_value c = Some d -> d < 10.
Proof.
  intros H. destruct (decimal_value_run c d H) as (z & _ & H1 & H2 & ->). lia.
Qed.

Lemma decimal_value_ascii (c d : N) :
  decimal_value c = Some d -> c < 127 -> 48 <= c /\ c <= 57 /\ d = c - 48.
Proof.
  intros H Hc. destruct (decimal_value_run c d H) as (z & Hin & H1 & H2 & ->).
  unfold decimal_zeros in Hin. simpl in Hin.
  destruct Hin as [<-|Hin]; [lia|].
  repeat (destruct Hin as [<-|Hin]; [lia|]).
  contradiction.
Qed.

Lemma digit_dot_not_space (c : char) : cls_digit_dot c = true -> is_space c = false.
Proof.
  unfold cls_digit_dot, cls_or, cls_is. intros H. apply orb_true_iff in H.
  destruct H as [H|H]; [now apply digit_not_space|].
  apply N.eqb_eq in H. now subst.
Qed.

Lemma forallb_rev {X} (f : X -> bool) (l : list X) :
  forallb f (rev l) = forallb f l.
Proof.
  induction l as [|x l IH]; [reflexivity|].
  simpl. rewrite forallb_app, IH. simpl. rewrite andb_true_r. apply andb_comm.
Qed.

(** A text splits in one way only at its first character outside a class. *)
Lemma first_outside_unique (P : char -> bool) (x x' : str) :
  forall c c' y y',
  x ++ c :: y = x' ++ c' :: y' ->
  forallb P x = true -> P c = false -> forallb P x' = true -> P c' = false ->
  x = x' /\ c = c' /\ y = y'.
Proof.
  revert x'. induction x as [|a x IH]; intros x' c c' y y' E Hx Hc Hx' Hc'.
  - destruct x' as [|a' x'].
    + simpl in E. injection E as -> ->. now repeat split.
    + simpl in E. injection E as -> _. simpl in Hx'.
      apply andb_true_iff in Hx'. destruct Hx' as [Ha _]. congruence.
  - destruct x' as [|a' x'].
    + simpl in E. injection E as -> _. simpl in Hx.
      apply andb_true_iff in Hx. destruct Hx as [Ha _]. congruence.
    + simpl in E. injection E as -> E. simpl in Hx, Hx'.
      apply andb_true_iff in Hx. apply andb_true_iff in Hx'.
      destruct Hx as [_ Hx]. destruct Hx' as [_ Hx'].
      destruct (IH x' c c' y y' E Hx Hc Hx' Hc') as (-> & -> & ->).
      now repeat split.
Qed.

(** ** The value pattern *)

Lemma value_pattern_shape (s : str) (caps : list str) (rest : str) :
  denotes value_pattern s caps rest ->
  exists p ws a b,
    caps = [a ++ 44 :: b] /\ s = p ++ ws ++ (a ++ 44 :: b) ++ rest
    /\ ws <> [] /\ forallb is_space ws = true
    /\ a <> [] /\ forallb cls_digit_dot a = true
    /\ b <> [] /\ forallb is_digit b = true
    /\ at_eol rest = true.
Proof.
  unfold value_pattern, star, plus, one, exactly. simpl.
  intros (c1 & mid1 & c2 & (p & -> & _ & _ & _ & ->) & H & ->).
  destruct H as (c3 & mid2 & c4 & (ws & -> & Hws & Lws & _ & ->) & H & ->).
  destruct H as (c5 & rest' & c6 & H & (E & He & ->) & ->). subst rest'.
  destruct H as (v & c7 & H & -> & ->).
  destruct H as (c8 & mid4 & c9 & (a & Ea & Ha & La & _ & ->) & H & ->).
  destruct H as (c10 & mid5 & c11 & (k & -> & Hk & Lk1 & Lk2 & ->) & H & ->).
  destruct H as (b & -> & Hb & Lb & _ & ->).
  destruct k as [|k0 [|k1 k]]; simpl in Lk1, Lk2; try lia.
  simpl in Hk. rewrite andb_true_r in Hk. apply N.eqb_eq in Hk. subst k0.
  simpl in Ea.
  change (a ++ 44 :: b ++ rest) with (a ++ (44 :: b) ++ rest) in Ea.
  rewrite app_assoc in Ea. apply app_inv_tail in Ea. subst v.
  exists p, ws, a, b. simpl.
  repeat split; try assumption.
  - destruct ws; [simpl in Lws; lia | discriminate].
  - destruct a; [simpl in La; lia | discriminate].
  - destruct b; [simpl in Lb; lia | discriminate].
Qed.

Lemma last_outside_unique (P : char -> bool) (x x' : str) (c c' : char) (y y' : str) :
  x ++ c :: y = x' ++ c' :: y' ->
  forallb P y = true -> P c = false -> forallb P y' = true -> P c' = false ->
  x = x' /\ c = c' /\ y = y'.
Proof.
  intros E Hy Hc Hy' Hc'.
  apply (f_equal (@rev char)) in E.
  rewrite !rev_app_distr in E. simpl in E. rewrite <- !app_assoc in E. simpl in E.
  apply first_outside_unique with (P := P) in E;
    [|now rewrite forallb_rev|assumption|now rewrite forallb_rev|assumption].
  destruct E as (E1 & E2 & E3).
  apply (f_equal (@rev char)) in E1, E3. rewrite !rev_involutive in E1, E3.
  now repeat split.
Qed.

Lemma at_eol_cases (s : str) : at_eol s = true -> s = [] \/ s = [nl].
Proof.
  destruct s as [|c [|d s]]; simpl; intros H; try discriminate.
  - now left.
  - apply N.eqb_eq in H. subst. now right.
Qed.

Lemma value_token_unique (pre q ws a b a0 b0 rest : str) (w : char) :
  pre ++ w :: (a0 ++ 44 :: b0) = q ++ ws ++ (a ++ 44 :: b) ++ rest ->
  is_space w = true ->
  forallb cls_digit_dot a0 = true -> b0 <> [] -> forallb is_digit b0 = true ->
  ws <> [] -> forallb is_space ws = true ->
  forallb cls_digit_dot a = true -> forallb is_digit b = true ->
  at_eol rest = true ->
  a = a0 /\ b = b0.
Proof.
  intros E Hw Ha0 Nb0 Hb0 Nws Hws Ha Hb He.
  destruct (at_eol_cases rest He) as [->| ->].
  - rewrite app_nil_r in E.
    assert (E1 : (pre ++ w :: a0) ++ 44 :: b0 = (q ++ ws ++ a) ++ 44 :: b).
    { rewrite <- ?app_assoc. simpl. rewrite <- ?app_assoc. exact E. }
    apply last_outside_unique with (P := is_digit) in E1;
      [|assumption|reflexivity|assumption|reflexivity].
    destruct E1 as (E1 & _ & E2).
    destruct (exists_last Nws) as (ws' & w' & ->).
    rewrite forallb_app in Hws. simpl in Hws. rewrite andb_true_r in Hws.
    apply andb_true_iff in Hws. destruct Hws as [_ Hw'].
    assert (E3 : pre ++ w :: a0 = (q ++ ws') ++ w' :: a).
    { rewrite E1, <- ?app_assoc. reflexivity. }
    apply last_outside_unique with (P := cls_digit_dot) in E3; try assumption.
    + destruct E3 as (_ & _ & E3). now split.
    + destruct (cls_digit_dot w) eqn:C; [|reflexivity].
      apply digit_dot_not_space in C. congruence.
    + destruct (cls_digit_dot w') eqn:C; [|reflexivity].
      apply digit_dot_not_space in C. congruence.
  - exfalso.
    assert (E1 : (pre ++ w :: a0) ++ 44 :: b0 = (q ++ ws ++ a ++ 44 :: b) ++ nl :: []).
    { rewrite <- ?app_assoc. simpl. rewrite <- ?app_assoc. simpl.
      rewrite <- ?app_assoc in E. exact E. }
    apply last_outside_unique with (P := is_digit) in E1;
      [|assumption|reflexivity|reflexivity|reflexivity].
    destruct E1 as (_ & _ & E1). now apply Nb0.
Qed.

Lemma value_pattern_intro (p ws a b : str) :
  forallb cls_dot p = true ->
  ws <> [] -> forallb is_space ws = true ->
  a <> [] -> forallb cls_digit_dot a = true ->
  b <> [] -> forallb is_digit b = true ->
  denotes value_pattern (p ++ ws ++ a ++ 44 :: b) [a ++ 44 :: b] [].
Proof.
  intros Hp Nws Hws Na Ha Nb Hb.
  assert (L : forall (l : str), l <> [] -> (1 <= List.length l)%nat).
  { intros [|x l] H; [contradiction | simpl; lia]. }
  unfold value_pattern, star, plus, one, exactly. simpl.
  exists [], (ws ++ a ++ 44 :: b), [a ++ 44 :: b]. split; [|split; [|reflexivity]].
  { exists p. repeat split; [assumption | lia]. }
  exists [], (a ++ 44 :: b), [a ++ 44 :: b]. split; [|split; [|reflexivity]].
  { exists ws. repeat split; [assumption | now apply L]. }
  exists [a ++ 44 :: b], [], []. split; [|split; [now repeat split|reflexivity]].
  exists (a ++ 44 :: b), []. split; [|split; [now rewrite app_nil_r|reflexivity]].
  exists [], (44 :: b), []. split; [|split; [|reflexivity]].
  { exists a. repeat split; [assumption | now apply L]. }
  exists [], b, []. split; [|split; [|reflexivity]].
  { exists [44]. repeat split; simpl; lia. }
  exists b. rewrite app_nil_r. repeat split; [assumption | now apply L].
Qed.

(** What the value pattern captures is a number in locale format. *)
Lemma value_search_sound (line : str) (m : list str) :
  search value_pattern line = Some m -> exists v, m = [v] /\ locale_number v.
Proof.
  intros H. apply search_some in H. destruct H as (pre & s' & rest & _ & Hd).
  apply value_pattern_shape in Hd.
  destruct Hd as (p & ws & a & b & -> & _ & _ & _ & Na & Ha & Nb & Hb & _).
  exists (a ++ 44 :: b). split; [reflexivity|]. now exists a, b.
Qed.

(** A number in locale format that ends the line and stands after white
    space is what the value pattern captures. *)
Lemma value_search_complete (pre : str) (w : char) (v : str) :
  is_space w = true -> locale_number v ->
  search value_pattern (pre ++ w :: v) = Some [v].
Proof.
  intros Hw (a0 & b0 & -> & Na0 & Nb0 & Ha0 & Hb0).
  destruct (search value_pattern (pre ++ w :: a0 ++ 44 :: b0)) as [m|] eqn:E.
  - f_equal. apply search_some in E. destruct E as (q0 & s' & rest & E & Hd).
    apply value_pattern_shape in Hd.
    destruct Hd as (p & ws & a & b & -> & -> & Nws & Hws & Na & Ha & Nb & Hb & He).
    assert (E' : pre ++ w :: a0 ++ 44 :: b0 = (q0 ++ p) ++ ws ++ (a ++ 44 :: b) ++ rest).
    { rewrite E, <- ?app_assoc. reflexivity. }
    destruct (value_token_unique _ _ _ _ _ _ _ _ _ E' Hw Ha0 Nb0 Hb0 Nws Hws Ha Hb He)
      as [-> ->].
    reflexivity.
  - exfalso. revert E.
    apply (search_finds value_pattern pre (w :: a0 ++ 44 :: b0) [a0 ++ 44 :: b0] []).
    apply (value_pattern_intro [] [w] a0 b0); try assumption; try reflexivity.
    + discriminate.
    + simpl. now rewrite Hw.
Qed.

Lemma lstrip_id (c : char) (s : str) : is_space c = false -> lstrip (c :: s) = c :: s.
Proof. intros H. simpl. now rewrite H. Qed.

Lemma strip_id (s s1 s2 : str) (c d : char) :
  s = c :: s1 -> s = s2 ++ [d] -> is_space c = false -> is_space d = false ->
  strip s = s.
Proof.
  intros E1 E2 Hc Hd. unfold strip, rstrip.
  rewrite E1, lstrip_id, <- E1 by assumption.
  rewrite E2, rev_app_distr. simpl.
  rewrite Hd. simpl. now rewrite rev_involutive.
Qed.

Lemma strip_locale_number (v : str) : locale_number v -> strip v = v.
Proof.
  intros (a & b & -> & Na & Nb & Ha & Hb).
  destruct a as [|c a]; [contradiction|].
  simpl in Ha. apply andb_true_iff in Ha. destruct Ha as [Hc _].
  destruct (exists_last Nb) as (b' & d & ->).
  rewrite forallb_app in Hb. simpl in Hb. rewrite andb_true_r in Hb.
  apply andb_true_iff in Hb. destruct Hb as [_ Hd].
  apply (strip_id _ (a ++ 44 :: b' ++ [d]) ((c :: a) ++ 44 :: b') c d).
  - reflexivity.
  - rewrite <- ?app_assoc. reflexivity.
  - now apply digit_dot_not_space.
  - now apply digit_not_space.
Qed.

(** ** The block loop *)

Section BlockLoop.

Local Open Scope nat_scope.

Context {T : Type}.

Lemma blocks_step (fuel : nat) (cleaned_lines : list str) (i : nat) (results : list (person T)) :
  blocks (S fuel) cleaned_lines i results =
  if i <? List.length cleaned_lines - 2 then
    match search person_pattern (nth i cleaned_lines []) with
    | Some person_match =>
      match search value_pattern (nth (i + 1) cleaned_lines []) with
      | Some value_match =>
        blocks fuel cleaned_lines (i + 3)
          (results ++ [new_person person_match (strip (group 1 value_match))])
      | None => blocks fuel cleaned_lines (i + 3) results
      end
    | None => blocks fuel cleaned_lines (i + 1) results
    end
  else results.
Proof. reflexivity. Qed.

(** Records are only ever added at the end. *)
Lemma blocks_extends (cleaned_lines : list str) (fuel : nat) :
  forall i (results : list (person T)),
  exists more, blocks fuel cleaned_lines i results = results ++ more.
Proof.
  induction fuel as [|fuel IH]; intros i results.
  - exists []. simpl. now rewrite app_nil_r.
  - rewrite blocks_step.
    destruct (i <? List.length cleaned_lines - 2); [|exists []; now rewrite app_nil_r].
    destruct (search person_pattern _) as [pm|]; [|apply IH].
    destruct (search value_pattern _) as [vm|]; [|apply IH].
    destruct (IH (i + 3) (results ++ [new_person pm (strip (group 1 vm))])) as [more ->].
    eexists. rewrite <- app_assoc. reflexivity.
Qed.

(** Once the fuel covers the lines that are left, more fuel changes nothing:
    the loop has ended by itself. *)
Lemma blocks_fuel (cleaned_lines : list str) (fuel : nat) :
  forall i (results : list (person T)), List.length cleaned_lines - 2 - i <= fuel ->
  blocks (S fuel) cleaned_lines i results = blocks fuel cleaned_lines i results.
Proof.
  induction fuel as [|fuel IH]; intros i results Hf.
  - rewrite blocks_step. simpl.
    destruct (Nat.ltb_spec i (List.length cleaned_lines - 2)); [lia|reflexivity].
  - rewrite (blocks_step (S fuel)), (blocks_step fuel cleaned_lines i results).
    destruct (Nat.ltb_spec i (List.length cleaned_lines - 2)); [|reflexivity].
    destruct (search person_pattern _) as [pm|]; [|apply IH; lia].
    destruct (search value_pattern _) as [vm|]; apply IH; lia.
Qed.

Lemma blocks_enough (cleaned_lines : list str) (i : nat) (results : list (person T)) :
  forall extra fuel, List.length cleaned_lines - 2 - i <= fuel ->
  blocks (extra + fuel) cleaned_lines i results = blocks fuel cleaned_lines i results.
Proof.
  induction extra as [|extra IH]; intros fuel Hf; [reflexivity|].
  change (S extra + fuel) with (S (extra + fuel)).
  rewrite blocks_fuel by lia. now apply IH.
Qed.

(** The loop of [extract_data_from_txt] passes through every cursor position. *)
Lemma cursor_reached (cleaned_lines : list str) (i : nat) :
  cursor cleaned_lines i ->
  exists results,
    blocks (List.length cleaned_lines) cleaned_lines 0 [] =
    blocks (List.length cleaned_lines) cleaned_lines i (results : list (person T)).
Proof.
  induction 1 as [|i Hc [results IH] Hi Hm|i Hc [results IH] Hi Hm].
  - now exists [].
  - destruct (List.length cleaned_lines) as [|n] eqn:En; [lia|].
    rewrite IH, blocks_step, En.
    destruct (Nat.ltb_spec i (S n - 2)); [|lia].
    destruct (search person_pattern _) as [pm|]; [|contradiction].
    destruct (search value_pattern _) as [vm|]; eexists;
      (rewrite blocks_fuel; [reflexivity | rewrite En; lia]).
  - destruct (List.length cleaned_lines) as [|n] eqn:En; [lia|].
    rewrite IH, blocks_step, En.
    destruct (Nat.ltb_spec i (S n - 2)); [|lia].
    rewrite Hm. eexists.
    rewrite blocks_fuel; [reflexivity | rewrite En; lia].
Qed.

(** C2, as the code has it.  For every block whose identity line
    matches at cursor position [i]: if line [i+1] ends with white space
    followed by a number in locale format (digits and dots, a comma,
    digits) that runs to the end of the line, the extractor emits a
    record with the fields of the identity match and that number as
    its value. *)
Theorem value_after_space_extracted (lines : list str) (i : nat)
    (person_match : list str) (pre : str) (w : char) (v : str) :
  cursor (prepass lines) i ->
  i < List.length (prepass lines) - 2 ->
  search person_pattern (nth i (prepass lines) []) = Some person_match ->
  nth (i + 1) (prepass lines) [] = pre ++ w :: v ->
  is_space w = true ->
  locale_number v ->
  In (new_person person_match v : person T) (extract_data_from_txt lines).
Proof.
  intros Hc Hi Hp Hv Hw Hn. unfold extract_data_from_txt.
  destruct (cursor_reached _ _ Hc) as [results ->].
  destruct (List.length (prepass lines)) as [|n] eqn:En; [lia|].
  rewrite blocks_step, En.
  destruct (Nat.ltb_spec i (S n - 2)); [|lia].
  rewrite Hp, Hv, (value_search_complete pre w v Hw Hn).
  change (group 1 [v]) with v. rewrite (strip_locale_number v Hn).
  destruct (blocks_extends (prepass lines) n (i + 3) (results ++ [new_person person_match v]))
    as [more ->].
  rewrite <- app_assoc. apply in_or_app. right. now left.
Qed.

End BlockLoop.

Lemma value_after_space_extracted_witness :
  In (new_person [lit "JOAO SILVA"; lit "111111"; lit "OPERADOR"] (lit "1.234,56")
       : person spec_float)
     (extract_data_from_txt
        [lit "JOAO SILVA 111111 OPERADOR"; lit "PRODUTIVIDADE 1.234,56"; lit "x"]).
Proof.
  apply (value_after_space_extracted
           [lit "JOAO SILVA 111111 OPERADOR"; lit "PRODUTIVIDADE 1.234,56"; lit "x"]
           0 [lit "JOAO SILVA"; lit "111111"; lit "OPERADOR"]
           (lit "PRODUTIVIDADE") 32 (lit "1.234,56")).
  - apply cursor_start.
  - vm_compute. lia.
  - vm_compute. reflexivity.
  - vm_compute. reflexivity.
  - vm_compute. reflexivity.
  - exists (lit "1.234"), (lit "56").
    repeat split; try discriminate; vm_compute; reflexivity.
Defined.

(** C2, as the claim has it, fails: the value line "1.234,56" is nothing
    but a number in locale format, the identity line before it matches
    at cursor 0, and no record is emitted, since the value pattern asks
    for white space before the number. *)
Lemma lone_number_not_extracted :
  let lines := [lit "JOAO SILVA 111111 OPERADOR"; lit "1.234,56"; lit "x"] in
  prepass lines = lines
  /\ cursor (prepass lines) 0
  /\ search person_pattern (nth 0 (prepass lines) []) <> None
  /\ (exists pre v, nth 1 (prepass lines) [] = pre ++ v /\ locale_number v)
  /\ search value_pattern (lit "1.234,56") = None
  /\ (extract_data_from_txt lines : list (person spec_float)) = [].
Proof.
  cbv zeta. split; [vm_compute; reflexivity|].
  split; [apply cursor_start|].
  split; [vm_compute; discriminate|].
  split.
  - exists [], (lit "1.234,56"). split; [vm_compute; reflexivity|].
    exists (lit "1.234"), (lit "56").
    repeat split; try discriminate; vm_compute; reflexivity.
  - split; vm_compute; reflexivity.
Qed.

(** ** Locale formatting *)

Section Formatting.

Local Open Scope nat_scope.

Lemma clusters_inv (t : str) :
  match clusters t with
  | [] => t = []
  | f :: others =>
    1 <= List.length f <= 3 /\ Forall (fun c => List.length c = 3) others
    /\ List.length t = List.length f + 3 * List.length others
  end.
Proof.
  induction t as [|c t IH]; [reflexivity|].
  simpl. destruct (clusters t) as [|f others].
  - subst t. simpl. repeat split; try lia. constructor.
  - destruct IH as (Hf & Ho & Hl).
    destruct (Nat.ltb_spec (List.length f) 3).
    + simpl. repeat split; try lia. assumption.
    + simpl. repeat split; try lia.
      constructor; [lia | assumption].
Qed.

Lemma clusters_concat (t : str) : List.concat (clusters t) = t.
Proof.
  induction t as [|c t IH]; [reflexivity|].
  simpl. destruct (clusters t) as [|f others].
  - simpl in IH. now subst t.
  - destruct (List.length f <? 3); simpl in *; now rewrite IH.
Qed.

Lemma clusters_shape (t : str) : t <> [] -> grouped_shape (clusters t).
Proof.
  intros Hne. pose proof (clusters_inv t) as H.
  destruct (clusters t) as [|f others]; [contradiction|].
  destruct H as (Hf & Ho & _). now split.
Qed.

Lemma join_clusters_cons (c : char) (t : str) :
  join 46%N (clusters (c :: t)) =
  c :: (if (0 <? List.length t) && (List.length t mod 3 =? 0)
        then 46%N :: join 46%N (clusters t) else join 46%N (clusters t)).
Proof.
  pose proof (clusters_inv t) as H. simpl clusters.
  destruct (clusters t) as [|f others].
  - subst t. reflexivity.
  - destruct H as (Hf & Ho & Hl).
    destruct (Nat.ltb_spec (List.length f) 3) as [H3|H3].
    + assert (E : (List.length t mod 3 =? 0) = false).
      { apply Nat.eqb_neq.
        replace (List.length t) with (List.length f + List.length others * 3) by lia.
        rewrite Nat.Div0.mod_add, Nat.mod_small; lia. }
      rewrite E, andb_false_r. destruct others; reflexivity.
    + assert (E : (List.length t mod 3 =? 0) = true).
      { apply Nat.eqb_eq.
        replace (List.length t) with (0 + (1 + List.length others) * 3) by lia.
        now rewrite Nat.Div0.mod_add. }
      assert (E0 : (0 <? List.length t) = true) by (apply Nat.ltb_lt; lia).
      rewrite E, E0. reflexivity.
Qed.

(** The loop of [format_brazilian_number] builds the clusters. *)
Lemma group_loop_clusters (chars : str) :
  forall t, group_loop chars (List.length t) (join 46%N (clusters t))
            = join 46%N (clusters (rev chars ++ t)).
Proof.
  induction chars as [|c chars IH]; intros t; [reflexivity|].
  simpl group_loop. rewrite <- join_clusters_cons.
  change (S (List.length t)) with (List.length (c :: t)).
  rewrite IH. simpl rev. now rewrite <- app_assoc.
Qed.

Lemma grouping_is_clusters (s : str) :
  s <> [] ->
  (if 3 <? List.length s then group_loop (rev s) 0 [] else s) = join 46%N (clusters s).
Proof.
  intros Hne. destruct (Nat.ltb_spec 3 (List.length s)) as [H|H].
  - pose proof (group_loop_clusters (rev s) []) as E. simpl in E.
    now rewrite E, app_nil_r, rev_involutive.
  - destruct s as [|a [|b [|c [|d s]]]]; try reflexivity. simpl in H. lia.
Qed.

Lemma digits_from_step (fuel : nat) (n : N) (acc : str) :
  digits_from (S fuel) n acc =
  if (n / 10 =? 0)%N then (48 + n mod 10)%N :: acc
  else digits_from fuel (n / 10)%N ((48 + n mod 10)%N :: acc).
Proof. reflexivity. Qed.

Lemma digit_char_ascii (n : N) : is_ascii_digit (48 + n mod 10)%N = true.
Proof.
  unfold is_ascii_digit.
  pose proof (N.mod_lt n 10 ltac:(discriminate)) as Hm.
  set (m := (n mod 10)%N) in *. clearbody m. apply andb_true_iff.
  split; apply N.leb_le; lia.
Qed.

Lemma digits_from_ascii (fuel : nat) :
  forall n acc, Forall (fun c => is_ascii_digit c = true) acc ->
  Forall (fun c => is_ascii_digit c = true) (digits_from fuel n acc).
Proof.
  induction fuel as [|fuel IH]; intros n acc Hacc; [assumption|].
  rewrite digits_from_step.
  assert (H : Forall (fun c => is_ascii_digit c = true) ((48 + n mod 10)%N :: acc)).
  { constructor; [apply digit_char_ascii | assumption]. }
  destruct (n / 10 =? 0)%N; [assumption | now apply IH].
Qed.

Lemma digits_from_nonempty (fuel : nat) :
  forall n acc, acc <> [] -> digits_from fuel n acc <> [].
Proof.
  induction fuel as [|fuel IH]; intros n acc Hacc; [assumption|].
  rewrite digits_from_step.
  destruct (n / 10 =? 0)%N; [discriminate | apply IH; discriminate].
Qed.

Lemma decimal_ascii (n : N) : Forall (fun c => is_ascii_digit c = true) (decimal n).
Proof. apply digits_from_ascii. constructor. Qed.

Lemma decimal_nonempty (n : N) : decimal n <> [].
Proof.
  unfold decimal. rewrite digits_from_step.
  destruct (n / 10 =? 0)%N; [discriminate | apply digits_from_nonempty; discriminate].
Qed.

Lemma fixed_ascii (w : nat) :
  forall n, Forall (fun c => is_ascii_digit c = true) (fixed w n).
Proof.
  induction w as [|w IH]; intros n; [constructor|].
  change (fixed (S w) n) with (fixed w (n / 10) ++ [(48 + n mod 10)%N]).
  apply Forall_app. split; [apply IH|].
  constructor; [apply digit_char_ascii | constructor].
Qed.

Lemma ascii_digits_no (x : char) (s : str) :
  is_ascii_digit x = false ->
  Forall (fun c => is_ascii_digit c = true) s -> ~ In x s.
Proof.
  intros Hx Hs Hin. rewrite Forall_forall in Hs. apply Hs in Hin. congruence.
Qed.

Lemma split_two (sep : char) (a b : str) :
  ~ In sep a -> ~ In sep b -> split sep (a ++ sep :: b) = [a; b].
Proof.
  intros Ha Hb. unfold split. rewrite split_from_app by assumption.
  change (split_from sep (rev a ++ []) (sep :: b))
    with (if (sep =? sep)%N then rev (rev a ++ []) :: split_from sep [] b
          else split_from sep (sep :: rev a ++ []) b).
  rewrite N.eqb_refl, app_nil_r, rev_involutive.
  now rewrite split_from_nil_end.
Qed.



Lemma fixed_nonempty (k : nat) (n : N) : truthy (fixed (S k) n) = true.
Proof.
  change (fixed (S k) n) with (fixed k (n / 10) ++ [(48 + n mod 10)%N]).
  destruct (fixed k (n / 10)); reflexivity.
Qed.

End Formatting.




(** ** The aggregator *)

Section AggregatorFacts.

Variable A : arith.

Lemma locale_float_raises (v : str) (e : exn) :
  locale_float A v = Raise e -> e = ValueError.
Proof.
  unfold locale_float, py_float.
  destruct (float_syntax _); [discriminate|]. now intros [= <-].
Qed.

(** [calculate_total_value] never raises. *)
Lemma total_loop_ok (data : list (person (num A))) :
  forall total printed, exists t pr, total_loop A data total printed = Ok (t, pr).
Proof.
  induction data as [|item rest IH]; intros total printed.
  - now exists total, printed.
  - simpl. destruct (truthy (value item)); [|apply IH].
    destruct (locale_float A (value item)) as [x|e] eqn:E; [apply IH|].
    apply locale_float_raises in E. subst e. apply IH.
Qed.

Lemma enrich_zero_total (t : num A) (dist : option (num A)) (item : person (num A)) :
  is_zero A t = true ->
  exists item', enrich A t dist item = Ok item' /\ zeroed A dist item item'.
Proof.
  intros Hz. unfold enrich, zeroed.
  destruct (truthy (value item)) eqn:Ht.
  - assert (E : exists e, shares A item t dist = Raise e).
    { unfold shares. destruct (locale_float A (value item)) as [x|e]; simpl.
      - unfold py_div. rewrite Hz. simpl. now exists ZeroDivisionError.
      - now exists e. }
    destruct E as [e ->].
    eexists. split; [destruct e; reflexivity|].
    unfold zero_fields. simpl. do 4 (split; [reflexivity|]).
    split; [|discriminate]. intros _.
    repeat split; destruct dist; try reflexivity; now intros.
  - exists item. split; [reflexivity|]. do 4 (split; [reflexivity|]).
    split; [discriminate | reflexivity].
Qed.

Lemma enrich_all_zero_total (t : num A) (dist : option (num A)) (data : list (person (num A))) :
  is_zero A t = true ->
  exists out, enrich_all A t dist data = Ok out /\ Forall2 (zeroed A dist) data out.
Proof.
  intros Hz. induction data as [|item0 rest (out & E & H)].
  - exists []. split; [reflexivity | constructor].
  - destruct (enrich_zero_total t dist item0 Hz) as (item' & E' & H').
    exists (item' :: out). simpl. rewrite E', E. simpl.
    split; [reflexivity | now constructor].
Qed.

(** C7, as the code has it.  [calculate_total_value] never raises.  For
    an empty record list, and for every record list whose values total
    zero, the aggregator raises no error, and each record of the output
    whose value field is not empty carries the all-zero derived fields:
    percentage "0,000000", percentage_float 0.0 and, when a
    distribution amount is supplied, total "0,00" and total_float 0.0;
    a record whose value field is empty is passed on as it is. *)
Theorem zero_total_gives_zero_fields :
  (forall data, exists t printed, calculate_total_value A data = Ok (t, printed))
  /\ (forall dist, calculate_percentages_and_distribution A [] dist = Ok [])
  /\ forall (data : list (person (num A))) (dist : option (num A))
            (t : num A) (printed : list str),
       calculate_total_value A data = Ok (t, printed) ->
       is_zero A t = true ->
       exists out,
         calculate_percentages_and_distribution A data dist = Ok out
         /\ Forall2 (zeroed A dist) data out.
Proof.
  split; [intros data; apply total_loop_ok|].
  split; [reflexivity|].
  intros data dist t printed Ht Hz.
  unfold calculate_percentages_and_distribution.
  destruct data as [|item0 rest].
  - exists []. split; [reflexivity | constructor].
  - rewrite Ht.
    change (bind (Ok (t, printed)) (fun tv => enrich_all A (fst tv) dist (item0 :: rest)))
      with (enrich_all A t dist (item0 :: rest)).
    now apply enrich_all_zero_total.
Qed.

End AggregatorFacts.

Lemma zero_total_gives_zero_fields_witness :
  let data := [mk_person (lit "JOAO SILVA") (lit "111111") (lit "OPERADOR") (lit "0,00")
                 None None None None : person (num binary64)] in
  calculate_total_value binary64 data = Ok (S754_zero false, [])
  /\ is_zero binary64 (S754_zero false) = true
  /\ exists out,
       calculate_percentages_and_distribution binary64 data (Some (hundred binary64)) = Ok out
       /\ Forall2 (zeroed binary64 (Some (hundred binary64))) data out.
Proof.
  cbv zeta. split; [vm_compute; reflexivity|]. split; [reflexivity|].
  apply (proj2 (proj2 (zero_total_gives_zero_fields binary64)))
    with (t := S754_zero false) (printed := []).
  - vm_compute; reflexivity.
  - reflexivity.
Defined.

(** C7, as the claim has it, fails for a record whose value field is
    empty: the values total zero, and the aggregator passes the record
    on as it is, with no derived field. *)
Lemma empty_value_gets_no_fields :
  let item := mk_person (lit "JOAO SILVA") (lit "111111") (lit "OPERADOR") []
                None None None None : person (num binary64) in
  calculate_total_value binary64 [item] = Ok (zero binary64, [])
  /\ is_zero binary64 (zero binary64) = true
  /\ calculate_percentages_and_distribution binary64 [item] (Some (hundred binary64))
     = Ok [item]
  /\ percentage item = None /\ percentage_float item = None
  /\ total item = None /\ total_float item = None.
Proof. cbv zeta. repeat split. Qed.

(** ** Numbers in locale format are accepted by [float] *)

Lemma replace_app (old : char) (new a b : str) :
  replace old new (a ++ b) = replace old new a ++ replace old new b.
Proof.
  induction a as [|c a IH]; [reflexivity|].
  simpl. now rewrite IH, app_assoc.
Qed.

Lemma replace_absent (old : char) (new s : str) :
  ~ In old s -> replace old new s = s.
Proof.
  induction s as [|c s IH]; intros Hn; [reflexivity|].
  simpl. destruct (N.eqb_spec c old) as [->|Hc].
  - exfalso. apply Hn. now left.
  - simpl. f_equal. apply IH. intros H. apply Hn. now right.
Qed.

Lemma digits_without (x : char) (s : str) :
  is_digit x = false -> forallb is_digit s = true -> ~ In x s.
Proof.
  intros Hx Hs Hin. rewrite forallb_forall in Hs. apply Hs in Hin. congruence.
Qed.

Lemma remove_dots_digits (a : str) :
  forallb cls_digit_dot a = true -> forallb is_digit (replace 46 [] a) = true.
Proof.
  induction a as [|c a IH]; intros H; [reflexivity|].
  simpl in H. apply andb_true_iff in H. destruct H as [Hc Ha].
  simpl. destruct (N.eqb_spec c 46) as [->|Hn].
  - simpl. now apply IH.
  - simpl. rewrite (IH Ha), andb_true_r.
    unfold cls_digit_dot, cls_or, cls_is in Hc. apply orb_true_iff in Hc.
    destruct Hc as [Hc|Hc]; [assumption|]. apply N.eqb_eq in Hc. contradiction.
Qed.

(** The text handed to [float] for a number in locale format: digits,
    a point, digits. *)
Lemma locale_text (v : str) :
  locale_number v ->
  exists a b, replace 44 [46] (replace 46 [] v) = a ++ 46 :: b
              /\ forallb is_digit a = true /\ forallb is_digit b = true /\ b <> [].
Proof.
  intros (a & b & -> & _ & Nb & Ha & Hb).
  exists (replace 46 [] a), b.
  pose proof (remove_dots_digits a Ha) as Ha'.
  rewrite replace_app.
  change (replace 46 [] (44 :: b)) with (44 :: replace 46 [] b).
  rewrite (replace_absent 46 [] b) by (now apply digits_without).
  rewrite replace_app.
  rewrite (replace_absent 44 [46] (replace 46 [] a)) by (now apply digits_without).
  change (replace 44 [46] (44 :: b)) with (46 :: replace 44 [46] b).
  rewrite (replace_absent 44 [46] b) by (now apply digits_without).
  now repeat split.
Qed.

Lemma to_ascii_digit (c : char) :
  is_digit c = true -> is_ascii_digit (to_ascii c) = true.
Proof.
  unfold is_digit. destruct (decimal_value c) as [d|] eqn:E; [intros _|discriminate].
  unfold to_ascii. destruct (N.ltb_spec c 127) as [H|H].
  - destruct (decimal_value_ascii c d E H) as (H1 & H2 & _).
    unfold is_ascii_digit. apply andb_true_iff. split; apply N.leb_le; lia.
  - assert (Hs : is_space c = false).
    { apply digit_not_space. unfold is_digit. now rewrite E. }
    rewrite Hs, E. pose proof (decimal_value_small c d E).
    unfold is_ascii_digit. apply andb_true_iff. split; apply N.leb_le; lia.
Qed.

Lemma map_to_ascii_digits (s : str) :
  forallb is_digit s = true ->
  Forall (fun c => is_ascii_digit c = true) (map to_ascii s).
Proof.
  induction s as [|c s IH]; intros H; [constructor|].
  simpl in H. apply andb_true_iff in H. destruct H as [Hc Hs].
  constructor; [now apply to_ascii_digit | now apply IH].
Qed.

Lemma strip_ascii_id (s s1 s2 : str) (c d : char) :
  s = c :: s1 -> s = s2 ++ [d] ->
  is_ascii_space c = false -> is_ascii_space d = false ->
  strip_ascii s = s.
Proof.
  intros E1 E2 Hc Hd. unfold strip_ascii.
  assert (L : forall x t, is_ascii_space x = false -> lstrip_ascii (x :: t) = x :: t).
  { intros x t Hx. simpl. now rewrite Hx. }
  rewrite E1, L, <- E1 by assumption.
  rewrite E2, rev_app_distr. simpl rev at 2. simpl app.
  rewrite L by assumption.
  change (d :: rev s2) with (rev [d] ++ rev s2).
  now rewrite <- rev_app_distr, rev_involutive.
Qed.

Lemma underscores_ok_none (s : str) :
  forall prev, prev <> 95 -> ~ In 95 s -> underscores_ok prev s = true.
Proof.
  induction s as [|c s IH]; intros prev Hp Hn.
  - simpl. now apply negb_true_iff, N.eqb_neq.
  - change (underscores_ok prev (c :: s)) with
      ((if c =? 95 then is_ascii_digit prev
        else negb (prev =? 95) || is_ascii_digit c) && underscores_ok c s).
    assert (Hc : c <> 95) by (intros ->; apply Hn; now left).
    apply N.eqb_neq in Hc. rewrite Hc. apply N.eqb_neq in Hp. rewrite Hp. simpl.
    apply IH; [now apply N.eqb_neq | intros H; apply Hn; now right].
Qed.

Lemma ascii_digit_cases (c : char) :
  is_ascii_digit c = true ->
  c = 48 \/ c = 49 \/ c = 50 \/ c = 51 \/ c = 52 \/ c = 53 \/ c = 54 \/ c = 55
  \/ c = 56 \/ c = 57.
Proof.
  unfold is_ascii_digit. intros H. apply andb_true_iff in H. destruct H as [H1 H2].
  apply N.leb_le in H1. apply N.leb_le in H2. lia.
Qed.

(** A text that starts with a digit or a point has no sign and is
    neither [inf] nor [nan]. *)
Lemma number_start (c : char) (s : str) :
  is_ascii_digit c = true \/ c = 46 ->
  take_sign (c :: s) = (false, c :: s) /\ inf_or_nan (c :: s) = None.
Proof.
  intros [H| ->]; [|split; reflexivity].
  apply ascii_digit_cases in H.
  repeat (destruct H as [->|H]; [split; reflexivity|]).
  subst. split; reflexivity.
Qed.

Lemma take_digits_app (ds : str) :
  Forall (fun c => is_ascii_digit c = true) ds ->
  forall c r, is_ascii_digit c = false ->
  take_digits (ds ++ c :: r) = (map (fun x => x - 48) ds, c :: r).
Proof.
  induction 1 as [|x ds Hx Hds IH]; intros c r Hc.
  - simpl. now rewrite Hc.
  - change (take_digits ((x :: ds) ++ c :: r)) with
      (if is_ascii_digit x
       then let (vs, rest) := take_digits (ds ++ c :: r) in ((x - 48) :: vs, rest)
       else ([], x :: ds ++ c :: r)).
    now rewrite Hx, IH.
Qed.

Lemma take_digits_all (ds : str) :
  Forall (fun c => is_ascii_digit c = true) ds ->
  take_digits ds = (map (fun x => x - 48) ds, []).
Proof.
  induction 1 as [|x ds Hx Hds IH]; [reflexivity|].
  change (take_digits (x :: ds)) with
    (if is_ascii_digit x
     then let (vs, rest) := take_digits ds in ((x - 48) :: vs, rest)
     else ([], x :: ds)).
  now rewrite Hx, IH.
Qed.

Lemma decimal_number_accepts (a b : str) :
  Forall (fun c => is_ascii_digit c = true) a ->
  Forall (fun c => is_ascii_digit c = true) b -> b <> [] ->
  exists m e, decimal_number (a ++ 46 :: b) = Some (LitNum false m e).
Proof.
  intros Ha Hb Nb.
  assert (Hstart : take_sign (a ++ 46 :: b) = (false, a ++ 46 :: b)).
  { destruct Ha as [|x a Hx Ha]; [reflexivity|]. apply number_start. now left. }
  unfold decimal_number. rewrite Hstart.
  rewrite (take_digits_app a Ha 46 b eq_refl).
  rewrite (take_digits_all b Hb).
  destruct b as [|y b]; [contradiction|].
  destruct (map (fun x => x - 48) a ++ map (fun x => x - 48) (y :: b)) as [|v vs] eqn:E.
  - apply app_eq_nil in E. destruct E as [_ E]. discriminate.
  - simpl. eauto.
Qed.

(** The value the extractor stores always converts. *)
Lemma float_syntax_locale (v : str) :
  locale_number v ->
  exists m e, float_syntax (replace 44 [46] (replace 46 [] v)) = Some (LitNum false m e).
Proof.
  intros Hv. destruct (locale_text v Hv) as (a & b & -> & Ha & Hb & Nb).
  apply map_to_ascii_digits in Ha. apply map_to_ascii_digits in Hb.
  assert (Nb' : map to_ascii b <> []) by (destruct b; [contradiction|discriminate]).
  unfold float_syntax. rewrite map_app.
  change (map to_ascii (46 :: b)) with (46 :: map to_ascii b).
  set (a' := map to_ascii a) in *. set (b' := map to_ascii b) in *.
  assert (No : forall x, is_ascii_digit x = false -> x <> 46 -> ~ In x (a' ++ 46 :: b')).
  { intros x Hx H46 Hin. apply in_app_or in Hin. destruct Hin as [Hin|[Hin|Hin]].
    - rewrite Forall_forall in Ha. apply Ha in Hin. congruence.
    - now apply H46.
    - rewrite Forall_forall in Hb. apply Hb in Hin. congruence. }
  assert (Es : strip_ascii (a' ++ 46 :: b') = a' ++ 46 :: b').
  { destruct (exists_last Nb') as (b0 & d & Eb).
    assert (Hd : is_ascii_digit d = true).
    { rewrite Forall_forall in Hb. apply Hb. rewrite Eb. apply in_or_app. right. now left. }
    assert (Sd : is_ascii_space d = false).
    { apply ascii_digit_cases in Hd.
      repeat (destruct Hd as [->|Hd]; [reflexivity|]). now subst. }
    destruct a' as [|x a0].
    - apply (strip_ascii_id _ b' (46 :: b0) 46 d); try reflexivity; try assumption.
      simpl. now rewrite Eb.
    - apply (strip_ascii_id _ (a0 ++ 46 :: b') ((x :: a0) ++ 46 :: b0) x d);
        try reflexivity; try assumption.
      + rewrite Eb, <- ?app_assoc. reflexivity.
      + inversion Ha as [|? ? Hx _]; subst. apply ascii_digit_cases in Hx.
        repeat (destruct Hx as [->|Hx]; [reflexivity|]). now subst. }
  rewrite Es.
  rewrite underscores_ok_none; [|discriminate | now apply No].
  rewrite replace_absent by (now apply No).
  assert (Ei : inf_or_nan (a' ++ 46 :: b') = None).
  { destruct a' as [|x a0]; [reflexivity|].
    apply number_start. left. now inversion Ha. }
  rewrite Ei. now apply decimal_number_accepts.
Qed.

(** ** What the extractor hands to the aggregator *)

Lemma blocks_values {T : Type} (cleaned_lines : list str) (fuel : nat) :
  forall i (results : list (person T)),
  Forall (fun item => locale_number (value item)) results ->
  Forall (fun item => locale_number (value item)) (blocks fuel cleaned_lines i results).
Proof.
  induction fuel as [|fuel IH]; intros i results Hr; [assumption|].
  rewrite blocks_step.
  destruct (i <? List.length cleaned_lines - 2)%nat; [|assumption].
  destruct (search person_pattern _) as [pm|]; [|now apply IH].
  destruct (search value_pattern _) as [vm|] eqn:E; [|now apply IH].
  apply IH. apply Forall_app. split; [assumption|].
  constructor; [|constructor].
  apply value_search_sound in E. destruct E as (v & -> & Hv).
  simpl. change (group 1 [v]) with v. now rewrite strip_locale_number.
Qed.

Lemma extract_values {T : Type} (lines : list str) :
  Forall (fun item : person T => locale_number (value item)) (extract_data_from_txt lines).
Proof. apply blocks_values. constructor. Qed.

Section Conversion.

Variable A : arith.

Lemma locale_float_ok (v : str) :
  locale_number v -> truthy v = true /\ exists x, locale_float A v = Ok x.
Proof.
  intros Hv. split.
  - destruct Hv as (a & b & -> & Na & _). destruct a; [contradiction|reflexivity].
  - destruct (float_syntax_locale v Hv) as (m & e & E).
    unfold locale_float, py_float. rewrite E. eauto.
Qed.

Lemma total_loop_converts (data : list (person (num A))) :
  Forall (fun item => locale_number (value item)) data ->
  forall total printed,
  total_loop A data total printed
    = Ok (fold_left (add A) (parsed_values A data) total, printed)
  /\ List.length (parsed_values A data) = List.length data.
Proof.
  induction 1 as [|item rest Hv Hrest IH]; intros total printed.
  - now split.
  - destruct (locale_float_ok _ Hv) as (Ht & x & Ex).
    unfold parsed_values in *. simpl. rewrite Ht, Ex. simpl.
    destruct (IH (add A total x) printed) as [-> ->]. now split.
Qed.

Lemma shares_ok (item : person (num A)) (t : num A) (dist : option (num A)) :
  locale_number (value item) ->
  is_zero A t = false -> is_zero A (hundred A) = false ->
  exists x, locale_float A (value item) = Ok x
    /\ shares A item t dist
       = Ok (mul A (quot A x t) (hundred A),
             match dist with
             | Some amount =>
               Some (mul A (quot A (mul A (quot A x t) (hundred A)) (hundred A)) amount)
             | None => None
             end).
Proof.
  intros Hv Ht Hh. destruct (locale_float_ok _ Hv) as (_ & x & Ex).
  exists x. split; [assumption|].
  unfold shares, py_div. rewrite Ex. simpl. rewrite Ht. simpl.
  destruct dist; [|reflexivity]. now rewrite Hh.
Qed.

End Conversion.

(** C10. Every text the value pattern captures converts under the
    locale parse.  Hence, for the records of [extract_data_from_txt],
    [calculate_total_value] prints no conversion warning and its total
    is the sum of the converted values, one for every record; and when
    that total is not zero, the body of the [try] in
    [calculate_percentages_and_distribution] raises nothing, so the
    fallback is not taken. *)
Theorem extracted_values_convert :
  (forall (line : str) (m : list str),
     search value_pattern line = Some m ->
     exists x, locale_float binary64 (strip (group 1 m)) = Ok x)
  /\ forall (lines : list str) (dist : option (num binary64)),
       let data : list (person (num binary64)) := extract_data_from_txt lines in
       exists t,
         calculate_total_value binary64 data = Ok (t, [])
         /\ List.length (parsed_values binary64 data) = List.length data
         /\ t = sum binary64 (parsed_values binary64 data)
         /\ (is_zero binary64 t = false ->
             forall item, In item data ->
             truthy (value item) = true
             /\ exists x d,
                  locale_float binary64 (value item) = Ok x
                  /\ shares binary64 item t dist
                     = Ok (mul binary64 (quot binary64 x t) (hundred binary64), d)).
Proof.
  split.
  - intros line m H. apply value_search_sound in H. destruct H as (v & -> & Hv).
    change (group 1 [v]) with v. rewrite (strip_locale_number v Hv).
    now apply locale_float_ok.
  - intros lines dist data.
    pose proof (extract_values lines : Forall _ data) as Hd.
    destruct (total_loop_converts binary64 data Hd (zero binary64) []) as [E L].
    exists (sum binary64 (parsed_values binary64 data)).
    split; [exact E|]. split; [exact L|]. split; [reflexivity|].
    intros Hz item Hin. rewrite Forall_forall in Hd. specialize (Hd item Hin).
    split; [now apply (locale_float_ok binary64)|].
    destruct (shares_ok binary64 item _ dist Hd Hz eq_refl) as (x & Ex & Es).
    eauto.
Qed.

Lemma extracted_values_convert_witness :
  let lines := [lit "JOAO SILVA 111111 OPERADOR"; lit "PRODUTIVIDADE 1.234,56"; lit "x"] in
  let item : person (num binary64) :=
    new_person [lit "JOAO SILVA"; lit "111111"; lit "OPERADOR"] (lit "1.234,56") in
  search value_pattern (lit "PRODUTIVIDADE 1.234,56") = Some [lit "1.234,56"]
  /\ (exists x, locale_float binary64 (strip (group 1 [lit "1.234,56"])) = Ok x)
  /\ exists t,
       calculate_total_value binary64 (extract_data_from_txt lines) = Ok (t, [])
       /\ is_zero binary64 t = false
       /\ In item (extract_data_from_txt lines)
       /\ truthy (value item) = true
       /\ exists x d,
            locale_float binary64 (value item) = Ok x
            /\ shares binary64 item t None
               = Ok (mul binary64 (quot binary64 x t) (hundred binary64), d).
Proof.
  cbv zeta. destruct extracted_values_convert as [H1 H2].
  split; [vm_compute; reflexivity|]. split.
  - apply (H1 (lit "PRODUTIVIDADE 1.234,56")). vm_compute. reflexivity.
  - destruct (H2 [lit "JOAO SILVA 111111 OPERADOR"; lit "PRODUTIVIDADE 1.234,56"; lit "x"] None)
      as (t & E & _ & Et & H).
    assert (Hz : is_zero binary64 t = false) by (rewrite Et; vm_compute; reflexivity).
    assert (Hin : In (new_person [lit "JOAO SILVA"; lit "111111"; lit "OPERADOR"]
                        (lit "1.234,56") : person (num binary64))
                     (extract_data_from_txt
                        [lit "JOAO SILVA 111111 OPERADOR"; lit "PRODUTIVIDADE 1.234,56"; lit "x"]))
      by (vm_compute; now left).
    exists t. split; [exact E|]. split; [exact Hz|]. split; [exact Hin|].
    exact (H Hz _ Hin).
Defined.

(** ** The end-to-end scenario *)

(** C1, as the code has it.  With value lines that carry a label before
    the number, "PRODUTIVIDADE 1.234,56" and "PRODUTIVIDADE 2.000,00",
    the scan followed by the aggregator with no distribution amount
    yields exactly two records, with percentage_float about 38.167788
    for the first and 61.832212 for the second (not 38.147805 and
    61.852195), and the two add up to 100. *)
Theorem end_to_end_two_records :
  let lines := [lit "JOAO SILVA 111111 OPERADOR"; lit "PRODUTIVIDADE 1.234,56"; lit "x";
                lit "MARIA SOUZA 222222 ANALISTA"; lit "PRODUTIVIDADE 2.000,00"; lit "y"] in
  exists r1 r2 p1 p2,
    calculate_percentages_and_distribution binary64 (extract_data_from_txt lines) None
      = Ok [r1; r2]
    /\ name r1 = lit "JOAO SILVA" /\ value r1 = lit "1.234,56"
    /\ name r2 = lit "MARIA SOUZA" /\ value r2 = lit "2.000,00"
    /\ percentage_float r1 = Some p1 /\ percentage_float r2 = Some p2
    /\ percentage r1 = Some (lit "38,167788") /\ percentage r2 = Some (lit "61,832212")
    /\ near (view_of binary64 p1) (38167788 # 1000000) (1 # 1000000) = true
    /\ near (view_of binary64 p2) (61832212 # 1000000) (1 # 1000000) = true
    /\ near (view_of binary64 p1) (38147805 # 1000000) (1 # 100) = false
    /\ near (view_of binary64 p2) (61852195 # 1000000) (1 # 100) = false
    /\ sum binary64 [p1; p2] = hundred binary64.
Proof.
  cbv zeta. do 4 eexists.
  split; [vm_compute; reflexivity|].
  repeat split; vm_compute; reflexivity.
Qed.

(** C1, as the claim has it, fails: on the lines of the claim, whose
    value lines are the numbers alone, the scan yields no record, and
    the aggregator returns the empty list. *)
Lemma end_to_end_lone_numbers :
  let lines := [lit "JOAO SILVA 111111 OPERADOR"; lit "1.234,56"; lit "x";
                lit "MARIA SOUZA 222222 ANALISTA"; lit "2.000,00"; lit "y"] in
  (extract_data_from_txt lines : list (person (num binary64))) = []
  /\ calculate_percentages_and_distribution binary64 (extract_data_from_txt lines) None
     = Ok [].
Proof. cbv zeta. split; vm_compute; reflexivity. Qed.

(** ** Sums under exact arithmetic *)

Section ExactSums.

Local Open Scope Qc_scope.





Lemma total_loop_cons (A : arith) (item : person (num A)) (rest : list (person (num A)))
    (total : num A) (printed : list str) :
  total_loop A (item :: rest) total printed =
  if truthy (value item) then
    match locale_float A (value item) with
    | Ok value_float => total_loop A rest (add A total value_float) printed
    | Raise ValueError | Raise TypeError =>
      total_loop A rest total (printed ++ [warning A item])
    | Raise e => Raise e
    end
  else total_loop A rest total printed.
Proof. reflexivity. Qed.










End ExactSums.





(** * Further properties *)

(** ** The line classifier: what is kept, and the skip flag *)

Lemma clean_lines_step (skip : bool) (line : str) (rest : list str) :
  clean_lines skip (line :: rest) =
  if boilerplate line then clean_lines skip rest
  else if contains (lit "TOTALIZA") line then clean_lines true rest
  else if is_some (search six_digits line) && negb (startswith (lit "239") line)
       then line :: clean_lines false rest
       else if skip then clean_lines true rest else line :: clean_lines false rest.
Proof.
  rewrite clean_lines_cons. unfold boilerplate.
  destruct (startswith page_marker line); [reflexivity|].
  destruct (any_header clean_headers line); [reflexivity|].
  destruct (startswith (lit "_") line || is_empty (strip line)); [reflexivity|].
  destruct (contains month_header line); [reflexivity|].
  destruct (is_empty (strip (replace 45 [] (strip line)))); [reflexivity|].
  cbn [orb].
  destruct (contains (lit "TOTALIZA") line); [reflexivity|].
  cbv zeta.
  destruct (is_some (search six_digits line) && negb (startswith (lit "239") line));
    [reflexivity|].
  destruct skip; reflexivity.
Qed.

Lemma dropped_split (line : str) :
  dropped line = boilerplate line || contains (lit "TOTALIZA") line.
Proof. reflexivity. Qed.

Lemma clean_lines_subsequence (lines : list str) :
  forall skip, subsequence (clean_lines skip lines) lines.
Proof.
  induction lines as [|line rest IH]; intros skip; [constructor|].
  rewrite clean_lines_step.
  destruct (boilerplate line); [apply subsequence_drop, IH|].
  destruct (contains (lit "TOTALIZA") line); [apply subsequence_drop, IH|].
  destruct (is_some (search six_digits line) && negb (startswith (lit "239") line));
    [apply subsequence_keep, IH|].
  destruct skip; [apply subsequence_drop, IH | apply subsequence_keep, IH].
Qed.

(** X1. The output of [clean_text] is the input with lines left out:
    the lines it joins are in the order of the input, each is a line of
    the input with no line break in it, and none of them is matched by
    a drop test. *)
Theorem clean_text_only_removes_lines (t : str) :
  exists out,
    clean_text t = join nl out
    /\ subsequence out (split nl t)
    /\ Forall (fun l => dropped l = false /\ ~ In nl l /\ l <> []) out.
Proof.
  exists (clean_lines false (split nl t)).
  split; [reflexivity|]. split; [apply clean_lines_subsequence|].
  pose proof (clean_lines_kept (split nl t) false) as Hk.
  eapply Forall_impl; [|exact Hk]. intros l [Hd Hin].
  split; [exact Hd|]. split.
  - pose proof (split_from_one_line nl t [] (fun x => x)) as Hs.
    rewrite Forall_forall in Hs. now apply Hs.
  - intros ->. discriminate Hd.
Qed.

Lemma ends_skip_false (line : str) :
  ends_skip line = false -> boilerplate line = false ->
  contains (lit "TOTALIZA") line = false ->
  is_some (search six_digits line) && negb (startswith (lit "239") line) = false.
Proof.
  unfold ends_skip. rewrite dropped_split. intros H Hb Ht.
  rewrite Hb, Ht in H. exact H.
Qed.

Lemma skipping_until_reset (lines : list str) :
  Forall (fun l => ends_skip l = false) lines -> clean_lines true lines = [].
Proof.
  induction 1 as [|line rest Hl _ IH]; [reflexivity|].
  rewrite clean_lines_step.
  destruct (boilerplate line) eqn:Hb; [exact IH|].
  destruct (contains (lit "TOTALIZA") line) eqn:Ht; [exact IH|].
  now rewrite (ends_skip_false line Hl Hb Ht).
Qed.

Lemma reset_clears (pre : list str) (l : str) (post : list str) :
  Forall (fun x => ends_skip x = false) pre -> ends_skip l = true ->
  clean_lines true (pre ++ l :: post) = l :: clean_lines false post.
Proof.
  intros Hpre Hl. induction Hpre as [|line rest Hx _ IH].
  - simpl app. rewrite clean_lines_step.
    unfold ends_skip in Hl. rewrite dropped_split in Hl.
    apply andb_true_iff in Hl. destruct Hl as [Hl H239].
    apply andb_true_iff in Hl. destruct Hl as [Hd H6].
    apply negb_true_iff, orb_false_elim in Hd. destruct Hd as [Hb Ht].
    now rewrite Hb, Ht, H6, H239.
  - change ((line :: rest) ++ l :: post) with (line :: (rest ++ l :: post)).
    rewrite clean_lines_step.
    destruct (boilerplate line) eqn:Hb; [exact IH|].
    destruct (contains (lit "TOTALIZA") line) eqn:Ht; [exact IH|].
    now rewrite (ends_skip_false line Hx Hb Ht).
Qed.

(** X2. The skip flag of [clean_text].  A line with "TOTALIZA" that no
    earlier test drops sets the flag, whatever it was; a line an
    earlier test drops leaves the flag as it is, also when it contains
    "TOTALIZA" or six digits.  Under the flag nothing is kept up to the
    first line that no test drops, that has six digits in a row and
    that does not start with "239"; that line is kept and the scan goes
    on with the flag cleared. *)
Theorem skip_section_machine :
  (forall skip m rest, starts_skip m = true ->
     clean_lines skip (m :: rest) = clean_lines true rest)
  /\ (forall skip m rest, boilerplate m = true ->
        clean_lines skip (m :: rest) = clean_lines skip rest)
  /\ (forall lines, Forall (fun l => ends_skip l = false) lines ->
        clean_lines true lines = [])
  /\ (forall skip m pre l post,
        starts_skip m = true ->
        Forall (fun x => ends_skip x = false) pre -> ends_skip l = true ->
        clean_lines skip (m :: pre ++ l :: post) = l :: clean_lines false post).
Proof.
  assert (S : forall skip m rest, starts_skip m = true ->
                clean_lines skip (m :: rest) = clean_lines true rest).
  { intros skip m rest H. unfold starts_skip in H.
    apply andb_true_iff in H. destruct H as [Hb Ht]. apply negb_true_iff in Hb.
    now rewrite clean_lines_step, Hb, Ht. }
  split; [exact S|]. split; [|split].
  - intros skip m rest Hb. now rewrite clean_lines_step, Hb.
  - exact skipping_until_reset.
  - intros skip m pre l post Hm Hpre Hl.
    rewrite (S skip m _ Hm). now apply reset_clears.
Qed.

Lemma skip_section_machine_witness :
  starts_skip (lit "TOTALIZACAO X") = true
  /\ Forall (fun x => ends_skip x = false) [lit "239001 foo"; lit "resumo"]
  /\ ends_skip (lit "123456 Jane Doe ANALISTA") = true
  /\ clean_lines false (lit "TOTALIZACAO X" :: [lit "239001 foo"; lit "resumo"]
                          ++ lit "123456 Jane Doe ANALISTA" :: [lit "100,50"])
     = lit "123456 Jane Doe ANALISTA" :: clean_lines false [lit "100,50"].
Proof.
  assert (H1 : starts_skip (lit "TOTALIZACAO X") = true) by (vm_compute; reflexivity).
  assert (H2 : Forall (fun x => ends_skip x = false) [lit "239001 foo"; lit "resumo"])
    by (repeat constructor; vm_compute; reflexivity).
  assert (H3 : ends_skip (lit "123456 Jane Doe ANALISTA") = true) by (vm_compute; reflexivity).
  split; [exact H1|]. split; [exact H2|]. split; [exact H3|].
  destruct skip_section_machine as (_ & _ & _ & H).
  exact (H false _ _ _ [lit "100,50"] H1 H2 H3).
Defined.

(** ** The text of a document *)

Lemma split_from_sep (sep : char) (a : str) :
  forall cur b,
  split_from sep cur (a ++ sep :: b) = split_from sep cur a ++ split_from sep [] b.
Proof.
  induction a as [|c a IH]; intros cur b.
  - simpl. now rewrite N.eqb_refl.
  - simpl. destruct (c =? sep); [now rewrite IH | apply IH].
Qed.

(** Splitting at the separator splits on both sides of one. *)
Lemma split_app_sep (sep : char) (a b : str) :
  split sep (a ++ sep :: b) = split sep a ++ split sep b.
Proof. apply split_from_sep. Qed.

Lemma split_join_concat (sep : char) (es : list str) :
  es <> [] -> split sep (join sep es) = List.concat (map (split sep) es).
Proof.
  induction es as [|e rest IH]; intros Hne; [contradiction|].
  destruct rest as [|e' rest].
  - simpl. now rewrite app_nil_r.
  - change (join sep (e :: e' :: rest)) with (e ++ sep :: join sep (e' :: rest)).
    rewrite split_app_sep, IH by discriminate. reflexivity.
Qed.

Lemma page_marker_line (page_num : nat) :
  ~ In nl (lit "--- Page " ++ decimal (N.of_nat (page_num + 1)) ++ lit " ---")
  /\ startswith page_marker
       (lit "--- Page " ++ decimal (N.of_nat (page_num + 1)) ++ lit " ---") = true.
Proof.
  split.
  - intros H. apply in_app_or in H. destruct H as [H|H].
    + vm_compute in H. repeat (destruct H as [H|H]; [discriminate|]). exact H.
    + apply in_app_or in H. destruct H as [H|H].
      * revert H. apply (ascii_digits_no nl); [reflexivity | apply decimal_ascii].
      * vm_compute in H. repeat (destruct H as [H|H]; [discriminate|]). exact H.
  - apply startswith_iff. exists (lit " " ++ decimal (N.of_nat (page_num + 1)) ++ lit " ---").
    reflexivity.
Qed.

Lemma split_page_entry (page_num : nat) (text : str) :
  exists marker,
    startswith page_marker marker = true
    /\ split nl (page_entry page_num text) = marker :: split nl text ++ [[]].
Proof.
  destruct (page_marker_line page_num) as [Hn Hs].
  exists (lit "--- Page " ++ decimal (N.of_nat (page_num + 1)) ++ lit " ---").
  split; [exact Hs|].
  unfold page_entry.
  replace (lit "--- Page " ++ decimal (N.of_nat (page_num + 1)) ++ lit " ---" ++ nl :: text ++ [nl])
    with ((lit "--- Page " ++ decimal (N.of_nat (page_num + 1)) ++ lit " ---")
          ++ nl :: (text ++ nl :: []))
    by (rewrite <- ?app_assoc; reflexivity).
  rewrite !split_app_sep.
  unfold split at 1. rewrite split_from_nil_end by exact Hn. reflexivity.
Qed.

Lemma clean_lines_marker (skip : bool) (m : str) (rest : list str) :
  startswith page_marker m = true -> clean_lines skip (m :: rest) = clean_lines skip rest.
Proof. intros H. now rewrite clean_lines_cons, H. Qed.

Lemma clean_lines_blank (skip : bool) (rest : list str) :
  clean_lines skip ([] :: rest) = clean_lines skip rest.
Proof. reflexivity. Qed.

(** What follows a common start is cleaned alike when it is cleaned
    alike under either flag. *)
Lemma clean_lines_app_ext (L X Y : list str) :
  (forall s, clean_lines s X = clean_lines s Y) ->
  forall s, clean_lines s (L ++ X) = clean_lines s (L ++ Y).
Proof.
  intros H. induction L as [|line L IH]; intros s; [apply H|].
  change ((line :: L) ++ X) with (line :: (L ++ X)).
  change ((line :: L) ++ Y) with (line :: (L ++ Y)).
  rewrite !clean_lines_step, !IH. reflexivity.
Qed.

Lemma clean_all_text (pages : list (option str)) :
  forall page_num s,
  clean_lines s (List.concat (map (split nl) (all_text page_num pages)))
  = clean_lines s (flat_map (split nl) (page_contents pages)).
Proof.
  induction pages as [|page rest IH]; intros page_num s; [reflexivity|].
  destruct page as [[|c text]|]; try apply IH.
  change (all_text page_num (Some (c :: text) :: rest))
    with (page_entry page_num (c :: text) :: all_text (S page_num) rest).
  change (page_contents (Some (c :: text) :: rest))
    with ((c :: text) :: page_contents rest).
  cbn [map List.concat flat_map].
  destruct (split_page_entry page_num (c :: text)) as (marker & Hm & ->).
  change ((marker :: split nl (c :: text) ++ [[]]) ++
          List.concat (map (split nl) (all_text (S page_num) rest)))
    with (marker :: ((split nl (c :: text) ++ [[]]) ++
          List.concat (map (split nl) (all_text (S page_num) rest)))).
  rewrite clean_lines_marker by exact Hm.
  rewrite <- app_assoc. apply clean_lines_app_ext.
  intros s'. change ([[]] ++ ?x) with ([] :: x).
  simpl app. rewrite clean_lines_blank. apply IH.
Qed.

(** X3. Cleaning the text of a document is cleaning the lines of its
    pages one after the other: the page markers and the empty lines
    that [extract_text_from_pdf] puts between the pages leave no trace,
    pages without text are passed over, and the skip flag is carried
    from one page to the next. *)
Theorem clean_text_of_pages (pages : list (option str)) :
  clean_text (extract_text_from_pdf pages)
  = join nl (clean_lines false (flat_map (split nl) (page_contents pages)))
  /\ forall no_page_markers,
       process_pdf pages true no_page_markers
       = join nl (clean_lines false (flat_map (split nl) (page_contents pages))).
Proof.
  assert (E : clean_text (extract_text_from_pdf pages)
              = join nl (clean_lines false (flat_map (split nl) (page_contents pages)))).
  { unfold clean_text, extract_text_from_pdf. f_equal.
    rewrite <- (clean_all_text pages 0 false).
    destruct (all_text 0 pages) as [|e es] eqn:Ea; [reflexivity|].
    now rewrite split_join_concat by discriminate. }
  split; [exact E | intros b; exact E].
Qed.

Lemma clean_lines_filter_markers (lines : list str) :
  forall s,
  clean_lines s (filter (fun line => negb (startswith page_marker line)) lines)
  = clean_lines s lines.
Proof.
  induction lines as [|line rest IH]; intros s; [reflexivity|].
  cbn [filter]. destruct (startswith page_marker line) eqn:H; cbn [negb].
  - now rewrite clean_lines_marker, IH.
  - rewrite !clean_lines_step, !IH. reflexivity.
Qed.

Lemma clean_text_without_markers (t : str) :
  clean_text (join nl (filter (fun line => negb (startswith page_marker line)) (split nl t)))
  = clean_text t.
Proof.
  unfold clean_text. f_equal.
  rewrite <- (clean_lines_filter_markers (split nl t) false).
  destruct (filter _ (split nl t)) as [|l ls] eqn:E; [reflexivity|].
  rewrite split_join; [reflexivity | discriminate |].
  rewrite <- E. apply Forall_forall. intros x Hx.
  apply filter_In in Hx. destruct Hx as [Hx _].
  pose proof (split_from_one_line nl t [] (fun y => y)) as Hs.
  rewrite Forall_forall in Hs. now apply Hs.
Qed.

(** X4. Cleaning commutes with the removal of the page markers:
    cleaning the text that [process_pdf] saves with [no_page_markers]
    gives the text it saves with [clean], and so does cleaning the raw
    text. *)
Theorem clean_after_marker_removal (pages : list (option str)) :
  clean_text (process_pdf pages false true) = process_pdf pages true false
  /\ clean_text (process_pdf pages false false) = process_pdf pages true false.
Proof.
  unfold process_pdf. split; [apply clean_text_without_markers | reflexivity].
Qed.

(** ** Formatting and parsing back *)

Section FormatParse.

Lemma digits_value_from (ds : list N) :
  forall a, fold_left (fun acc d => 10 * acc + d) ds a
            = a * 10 ^ N.of_nat (List.length ds) + digits_value ds.
Proof.
  unfold digits_value. induction ds as [|d ds IH]; intros a.
  - cbn [fold_left List.length N.of_nat]. rewrite N.pow_0_r. lia.
  - cbn [fold_left]. rewrite IH, (IH (10 * 0 + d)).
    change (List.length (d :: ds)) with (S (List.length ds)).
    rewrite Nat2N.inj_succ, N.pow_succ_r'. lia.
Qed.

Lemma digits_value_app (xs ys : list N) :
  digits_value (xs ++ ys)
  = digits_value xs * 10 ^ N.of_nat (List.length ys) + digits_value ys.
Proof.
  unfold digits_value at 1. rewrite fold_left_app.
  fold (digits_value xs). apply digits_value_from.
Qed.

Lemma digit_values_app (a b : str) :
  digit_values (a ++ b) = digit_values a ++ digit_values b.
Proof. apply map_app. Qed.

Lemma digit_values_length (a : str) : List.length (digit_values a) = List.length a.
Proof. apply length_map. Qed.

Lemma fixed_length (w : nat) : forall n, List.length (fixed w n) = w.
Proof.
  induction w as [|w IH]; intros n; [reflexivity|].
  change (fixed (S w) n) with (fixed w (n / 10) ++ [48 + n mod 10]).
  rewrite length_app, IH. simpl. lia.
Qed.

Lemma digit_value_char (n : N) : 48 + n mod 10 - 48 = n mod 10.
Proof. generalize (n mod 10). intros m. lia. Qed.

(** The last [w] digits spell the number modulo [10^w]. *)
Lemma fixed_value (w : nat) :
  forall n, digits_value (digit_values (fixed w n)) = n mod 10 ^ N.of_nat w.
Proof.
  induction w as [|w IH]; intros n.
  - simpl. now rewrite N.mod_1_r.
  - change (fixed (S w) n) with (fixed w (n / 10) ++ [48 + n mod 10]).
    rewrite digit_values_app, digits_value_app, IH.
    change (digit_values [48 + n mod 10]) with [48 + n mod 10 - 48].
    rewrite digit_value_char.
    change (digits_value [n mod 10]) with (10 * 0 + n mod 10).
    change (N.of_nat (List.length [n mod 10])) with 1.
    rewrite Nat2N.inj_succ, N.pow_succ_r', N.pow_1_r.
    rewrite (N.Div0.mod_mul_r n 10 (10 ^ N.of_nat w)). lia.
Qed.

Lemma digits_from_value (fuel : nat) :
  forall n acc, n < 2 ^ N.of_nat fuel ->
  digits_value (digit_values (digits_from fuel n acc))
  = n * 10 ^ N.of_nat (List.length acc) + digits_value (digit_values acc).
Proof.
  induction fuel as [|fuel IH]; intros n acc Hn.
  - simpl in Hn. assert (n = 0) by lia. subst n. simpl. lia.
  - rewrite digits_from_step.
    assert (Hc : digits_value (digit_values ((48 + n mod 10) :: acc))
                 = n mod 10 * 10 ^ N.of_nat (List.length acc)
                   + digits_value (digit_values acc)).
    { change ((48 + n mod 10) :: acc) with ([48 + n mod 10] ++ acc).
      rewrite digit_values_app, digits_value_app, digit_values_length.
      change (digit_values [48 + n mod 10]) with [48 + n mod 10 - 48].
      rewrite digit_value_char.
      change (digits_value [n mod 10]) with (10 * 0 + n mod 10). lia. }
    pose proof (N.div_mod n 10 ltac:(discriminate)) as Hdm.
    destruct (N.eqb_spec (n / 10) 0) as [Hz|Hz].
    + rewrite Hc. rewrite Hz in Hdm. nia.
    + rewrite IH.
      * rewrite Hc.
        change (List.length ((48 + n mod 10) :: acc)) with (S (List.length acc)).
        rewrite Nat2N.inj_succ, N.pow_succ_r'. nia.
      * rewrite Nat2N.inj_succ, N.pow_succ_r' in Hn.
        apply N.Div0.div_lt_upper_bound. lia.
Qed.

(** The digits of a number spell the number. *)
Lemma decimal_spells (n : N) : digits_value (digit_values (decimal n)) = n.
Proof.
  unfold decimal. rewrite digits_from_value.
  - change (digits_value (digit_values [])) with 0.
    change (N.of_nat (List.length (@nil N))) with 0.
    rewrite N.pow_0_r. lia.
  - rewrite Nat2N.inj_succ, N2Nat.id.
    destruct n as [|p]; [reflexivity|].
    apply N.log2_spec. reflexivity.
Qed.

End FormatParse.

Section FormatAnySign.

Local Open Scope nat_scope.

Lemma format_f_any (neg : bool) (n : N) (d : positive) (places : nat) :
  format_f (VFin neg n d) places =
  (sign_text neg
   ++ decimal (round_half_even (n * 10 ^ N.of_nat places) d / 10 ^ N.of_nat places))
  ++ match places with
     | O => []
     | S _ => 46%N :: fixed places
                        (round_half_even (n * 10 ^ N.of_nat places) d mod 10 ^ N.of_nat places)
     end.
Proof. unfold format_f. now rewrite <- app_assoc. Qed.

Lemma signed_digits_no (x : char) (neg : bool) (s : str) :
  is_ascii_digit x = false -> x <> 45%N ->
  Forall (fun c => is_ascii_digit c = true) s -> ~ In x (sign_text neg ++ s).
Proof.
  intros Hx H45 Hs Hin. apply in_app_or in Hin. destruct Hin as [Hin|Hin].
  - destruct neg; simpl in Hin; [|contradiction].
    destruct Hin as [Hin|[]]. now apply H45.
  - revert Hin. now apply ascii_digits_no.
Qed.

Lemma signed_digits_nonempty (neg : bool) (n : N) : sign_text neg ++ decimal n <> [].
Proof.
  intros H. apply app_eq_nil in H. destruct H as [_ H]. now apply (decimal_nonempty n).
Qed.

(** The integer part goes through the grouping loop together with its
    sign. *)
Lemma format_brazilian_number_any (A : arith) (x : num A) (neg : bool) (n : N)
    (d : positive) (places : nat) :
  view_of A x = VFin neg n d ->
  format_brazilian_number A x places =
  join 46%N (clusters (sign_text neg
     ++ decimal (round_half_even (n * 10 ^ N.of_nat places) d / 10 ^ N.of_nat places)))
  ++ match places with
     | O => []
     | S _ => 44%N :: fixed places
                        (round_half_even (n * 10 ^ N.of_nat places) d mod 10 ^ N.of_nat places)
     end.
Proof.
  intros Hv. unfold format_brazilian_number. rewrite Hv, format_f_any.
  set (ip := sign_text neg ++ decimal _).
  assert (Hip : ~ In 46%N ip)
    by (apply signed_digits_no; [reflexivity | discriminate | apply decimal_ascii]).
  assert (Nip : ip <> []) by apply signed_digits_nonempty.
  destruct places as [|k].
  - rewrite app_nil_r. unfold split. rewrite split_from_nil_end by exact Hip.
    change (1 <? List.length [rev [] ++ ip]) with false.
    cbn [nth rev app truthy is_empty negb].
    rewrite (grouping_is_clusters _ Nip). now rewrite app_nil_r.
  - set (fp := fixed (S k) _).
    rewrite split_two
      by (first [exact Hip
                | apply (ascii_digits_no 46%N); [reflexivity | apply fixed_ascii]]).
    change (1 <? List.length [ip; fp]) with true.
    cbn [nth].
    rewrite (grouping_is_clusters _ Nip). subst fp.
    now rewrite fixed_nonempty.
Qed.

Lemma replace_join (sep : char) (cs : list str) :
  replace sep [] (join sep cs) = replace sep [] (List.concat cs).
Proof.
  induction cs as [|p rest IH]; [reflexivity|].
  destruct rest as [|q rest].
  - simpl. now rewrite app_nil_r.
  - change (join sep (p :: q :: rest)) with (p ++ sep :: join sep (q :: rest)).
    change (List.concat (p :: q :: rest)) with (p ++ List.concat (q :: rest)).
    rewrite !replace_app. f_equal.
    change (replace sep [] (sep :: join sep (q :: rest)))
      with ((if (sep =? sep)%N then [] else [sep]) ++ replace sep [] (join sep (q :: rest))).
    now rewrite N.eqb_refl, IH.
Qed.

End FormatAnySign.

(** X5. The grouping loop of [format_brazilian_number] takes the sign
    for a digit.  For every finite number, negative ones included, the
    output is the sign and the digits of the rounded integer part, cut
    together into clusters of three from the right and joined by '.',
    then the fraction; so a negative number whose integer part has
    three, six, nine, ... digits comes out with "-." in front, as in
    "-.123,4". *)
Theorem format_groups_sign_as_digit (A : arith) (x : num A) (neg : bool) (n : N)
    (d : positive) (places : nat) :
  view_of A x = VFin neg n d ->
  let scale := 10 ^ N.of_nat places in
  let r := round_half_even (n * scale) d in
  (exists cs,
     format_brazilian_number A x places
       = join 46 cs ++ match places with
                       | O => []
                       | S _ => 44 :: fixed places (r mod scale)
                       end
     /\ List.concat cs = sign_text neg ++ decimal (r / scale)
     /\ grouped_shape cs)
  /\ (neg = true ->
      (exists k, List.length (decimal (r / scale)) = 3 * S k)%nat ->
      exists rest, format_brazilian_number A x places = 45 :: 46 :: rest).
Proof.
  intros Hv scale r.
  pose proof (format_brazilian_number_any A x neg n d places Hv) as E.
  fold scale in E. fold r in E.
  split.
  - exists (clusters (sign_text neg ++ decimal (r / scale))).
    split; [exact E|].
    split; [apply clusters_concat | apply clusters_shape, signed_digits_nonempty].
  - intros -> [k Hk]. rewrite E.
    pose proof (clusters_inv (sign_text true ++ decimal (r / scale))) as Hi.
    pose proof (clusters_concat (sign_text true ++ decimal (r / scale))) as Hc.
    destruct (clusters (sign_text true ++ decimal (r / scale))) as [|f others];
      [discriminate Hi|].
    destruct Hi as (Hf & Ho & Hl).
    change (List.length (sign_text true ++ decimal (r / scale)))
      with (S (List.length (decimal (r / scale)))) in Hl.
    rewrite Hk in Hl.
    assert (Hf1 : List.length f = 1%nat) by lia.
    destruct f as [|c [|c' f]]; try discriminate Hf1.
    destruct others as [|o others]; [simpl in Hl; lia|].
    simpl in Hc. injection Hc as -> _.
    eexists. reflexivity.
Qed.

Lemma format_groups_sign_as_digit_witness :
  view_of binary64 (of_literal binary64 (LitNum true 1234 (-1)))
    = VFin true 8683503031523738 70368744177664
  /\ (exists k, List.length (decimal 123) = 3 * S k)%nat
  /\ exists rest,
       format_brazilian_number binary64 (of_literal binary64 (LitNum true 1234 (-1))) 1
       = 45 :: 46 :: rest.
Proof.
  assert (Hv : view_of binary64 (of_literal binary64 (LitNum true 1234 (-1)))
               = VFin true 8683503031523738 70368744177664) by (vm_compute; reflexivity).
  assert (Hk : (exists k, List.length (decimal 123) = 3 * S k)%nat)
    by (exists 0%nat; vm_compute; reflexivity).
  split; [exact Hv|]. split; [exact Hk|].
  exact (proj2 (format_groups_sign_as_digit binary64 _ true _ _ 1%nat Hv) eq_refl Hk).
Defined.

(** ** Reading a formatted number back *)

Lemma map_to_ascii_small (s : str) :
  Forall (fun c => c < 127) s -> map to_ascii s = s.
Proof.
  induction 1 as [|c s Hc _ IH]; [reflexivity|].
  cbn [map]. rewrite IH. f_equal. unfold to_ascii.
  apply N.ltb_lt in Hc. now rewrite Hc.
Qed.

Lemma strip_ascii_all (s : str) :
  s <> [] -> Forall (fun c => is_ascii_space c = false) s -> strip_ascii s = s.
Proof.
  intros Hne Hs. destruct (exists_last Hne) as (s2 & d & E2).
  destruct s as [|c s1]; [contradiction|].
  apply (strip_ascii_id _ s1 s2 c d); [reflexivity | exact E2 | |].
  - now inversion Hs.
  - rewrite Forall_forall in Hs. apply Hs. rewrite E2. apply in_or_app. right. now left.
Qed.

Lemma decimal_number_value (s : str) (neg : bool) (a b : str) :
  take_sign s = (neg, a ++ match b with [] => [] | _ :: _ => 46 :: b end) ->
  Forall (fun c => is_ascii_digit c = true) a -> a <> [] ->
  Forall (fun c => is_ascii_digit c = true) b ->
  decimal_number s
  = Some (LitNum neg (digits_value (digit_values (a ++ b)))
                 (- Z.of_nat (List.length b))).
Proof.
  intros Hs Ha Na Hb. unfold decimal_number. rewrite Hs.
  destruct b as [|y b0].
  - rewrite !app_nil_r, (take_digits_all a Ha).
    change (map (fun x => x - 48) a) with (digit_values a). rewrite app_nil_r.
    destruct (digit_values a) as [|v vs] eqn:E.
    + destruct a; [contradiction | discriminate E].
    + reflexivity.
  - rewrite (take_digits_app a Ha 46 (y :: b0) eq_refl).
    rewrite (take_digits_all (y :: b0) Hb).
    change (map (fun x => x - 48) a) with (digit_values a).
    change (map (fun x => x - 48) (y :: b0)) with (digit_values (y :: b0)).
    rewrite <- digit_values_app.
    destruct (digit_values (a ++ y :: b0)) as [|v vs] eqn:E.
    + destruct a; [contradiction | discriminate E].
    + cbn [take_exponent]. rewrite digit_values_length. reflexivity.
Qed.

Lemma inf_or_nan_minus_digit (c : char) (s : str) :
  is_ascii_digit c = true -> inf_or_nan (45 :: c :: s) = None.
Proof.
  intros H. apply ascii_digit_cases in H.
  repeat (destruct H as [->|H]; [reflexivity|]). subst. reflexivity.
Qed.

(** [float] reads a sign, digits and, if any, a point and more digits as
    the number they spell. *)
Lemma float_syntax_signed_decimal (neg : bool) (a b : str) :
  Forall (fun c => is_ascii_digit c = true) a -> a <> [] ->
  Forall (fun c => is_ascii_digit c = true) b ->
  float_syntax (sign_text neg ++ a ++ match b with [] => [] | _ :: _ => 46 :: b end)
  = Some (LitNum neg (digits_value (digit_values (a ++ b)))
                 (- Z.of_nat (List.length b))).
Proof.
  intros Ha Na Hb.
  set (tail := match b with [] => [] | _ :: _ => 46 :: b end).
  set (t := sign_text neg ++ a ++ tail).
  assert (P : Forall (fun c => is_ascii_digit c = true \/ c = 45 \/ c = 46) t).
  { unfold t. apply Forall_app. split.
    - destruct neg; [constructor; [right; now left | constructor] | constructor].
    - apply Forall_app. split.
      + eapply Forall_impl; [|exact Ha]. intros c Hc. now left.
      + unfold tail. destruct b as [|y b0]; [constructor|].
        constructor; [right; now right|].
        eapply Forall_impl; [|exact Hb]. intros c Hc. now left. }
  assert (Q : forall c, is_ascii_digit c = true \/ c = 45 \/ c = 46 ->
                        c < 127 /\ is_ascii_space c = false /\ c <> 95).
  { intros c [H|[->| ->]]; [|repeat split; (reflexivity || discriminate)..].
    apply ascii_digit_cases in H.
    repeat (destruct H as [->|H];
            [repeat split; (reflexivity || discriminate)|]).
    subst. repeat split; (reflexivity || discriminate). }
  assert (Nt : t <> []).
  { unfold t. intros H. apply app_eq_nil in H. destruct H as [_ H].
    apply app_eq_nil in H. destruct H as [H _]. now apply Na. }
  unfold float_syntax.
  rewrite map_to_ascii_small
    by (eapply Forall_impl; [|exact P]; intros c Hc; now apply Q).
  rewrite strip_ascii_all
    by (first [exact Nt | eapply Forall_impl; [|exact P]; intros c Hc; now apply Q]).
  assert (N95 : ~ In 95 t).
  { intros H. rewrite Forall_forall in P. apply P, Q in H. now destruct H as (_ & _ & H). }
  rewrite underscores_ok_none by (first [exact N95 | discriminate]).
  rewrite replace_absent by exact N95.
  destruct a as [|c a0]; [contradiction|].
  assert (Hc : is_ascii_digit c = true) by now inversion Ha.
  assert (S : take_sign t = (neg, (c :: a0) ++ tail) /\ inf_or_nan t = None).
  { unfold t. destruct neg.
    - split; [reflexivity | now apply inf_or_nan_minus_digit].
    - apply number_start. now left. }
  destruct S as [S1 S2]. rewrite S2.
  now apply decimal_number_value.
Qed.

(** X6. Formatting a finite number and parsing the text back as an
    amount gives the number the text spells, which is the value rounded
    to the given count of decimal places (halves to even), with its
    sign: the dots of the grouping and the comma are undone by
    [parse_amount], and nothing is printed. *)
Theorem parse_amount_of_formatted (A : arith) (x : num A) (neg : bool) (n : N)
    (d : positive) (places : nat) :
  view_of A x = VFin neg n d ->
  parse_amount A (Some (format_brazilian_number A x places))
  = Ok (Some (of_literal A
                (LitNum neg (round_half_even (n * 10 ^ N.of_nat places) d)
                        (- Z.of_nat places))), []).
Proof.
  intros Hv. unfold parse_amount.
  rewrite (format_brazilian_number_any A x neg n d places Hv).
  set (scale := 10 ^ N.of_nat places). set (r := round_half_even (n * scale) d).
  set (ip := decimal (r / scale)). set (fp := fixed places (r mod scale)).
  assert (Hdot : ~ In 46 (sign_text neg ++ ip))
    by (apply signed_digits_no; [reflexivity | discriminate | apply decimal_ascii]).
  assert (Hcomma : ~ In 44 (sign_text neg ++ ip))
    by (apply signed_digits_no; [reflexivity | discriminate | apply decimal_ascii]).
  assert (Hfp : Forall (fun c => is_ascii_digit c = true) fp) by apply fixed_ascii.
  assert (E : replace 44 [46] (replace 46 []
                (join 46 (clusters (sign_text neg ++ ip))
                 ++ match places with O => [] | S _ => 44 :: fp end))
              = sign_text neg ++ ip ++ match fp with [] => [] | _ :: _ => 46 :: fp end).
  { rewrite replace_app, replace_join, clusters_concat, (replace_absent 46 [] _ Hdot).
    rewrite replace_app, (replace_absent 44 [46] _ Hcomma), <- app_assoc. do 2 f_equal.
    destruct places as [|k].
    - reflexivity.
    - change (replace 46 [] (44 :: fp)) with (44 :: replace 46 [] fp).
      rewrite (replace_absent 46 [] fp)
        by (apply (ascii_digits_no 46); [reflexivity | exact Hfp]).
      change (replace 44 [46] (44 :: fp)) with (46 :: replace 44 [46] fp).
      rewrite (replace_absent 44 [46] fp)
        by (apply (ascii_digits_no 44); [reflexivity | exact Hfp]).
      pose proof (fixed_length (S k) (r mod scale)) as L. fold fp in L.
      destruct fp; [discriminate L | reflexivity]. }
  rewrite E. unfold py_float.
  rewrite (float_syntax_signed_decimal neg ip fp (decimal_ascii _) (decimal_nonempty _) Hfp).
  do 4 f_equal.
  rewrite digit_values_app, digits_value_app, digit_values_length.
  unfold ip, fp. rewrite decimal_spells, fixed_value, fixed_length.
  fold scale. rewrite N.Div0.mod_mod.
  rewrite (N.div_mod r scale) at 3
    by (unfold scale; apply N.pow_nonzero; discriminate).
  now rewrite (N.mul_comm scale).
Qed.

Lemma parse_amount_of_formatted_witness :
  view_of binary64 (of_literal binary64 (LitNum false 990253 (-2)))
    = VFin false 5443973439700337 549755813888
  /\ format_brazilian_number binary64 (of_literal binary64 (LitNum false 990253 (-2))) 2
     = lit "9.902,53"
  /\ parse_amount binary64
       (Some (format_brazilian_number binary64
                (of_literal binary64 (LitNum false 990253 (-2))) 2))
     = Ok (Some (of_literal binary64 (LitNum false 990253 (-2))), []).
Proof.
  assert (Hv : view_of binary64 (of_literal binary64 (LitNum false 990253 (-2)))
               = VFin false 5443973439700337 549755813888) by (vm_compute; reflexivity).
  split; [exact Hv|]. split; [vm_compute; reflexivity|].
  rewrite (parse_amount_of_formatted binary64 _ false _ _ 2%nat Hv).
  vm_compute. reflexivity.
Defined.

(** ** The aggregator on any list of records *)

Section AggregatorRuns.

Variable A : arith.

Lemma shares_with_amount (item : person (num A)) (t amount p : num A) (d : option (num A)) :
  shares A item t (Some amount) = Ok (p, d) -> d <> None.
Proof.
  unfold shares.
  destruct (locale_float A (value item)) as [x|e]; [|discriminate]. simpl.
  destruct (py_div A x t) as [q|e]; [|discriminate]. simpl.
  destruct (py_div A _ _) as [q'|e]; [|discriminate]. simpl.
  intros [= _ <-]. discriminate.
Qed.

Lemma shares_without_amount (item : person (num A)) (t p : num A) (d : option (num A)) :
  shares A item t None = Ok (p, d) -> d = None.
Proof.
  unfold shares.
  destruct (locale_float A (value item)) as [x|e]; [|discriminate]. simpl.
  destruct (py_div A x t) as [q|e]; [|discriminate]. simpl.
  now intros [= _ <-].
Qed.

(** The body of the loop never raises: the three errors of the [try]
    are the only ones its operations have. *)
Lemma enrich_enriched (t : num A) (dist : option (num A)) (item : person (num A)) :
  exists item', enrich A t dist item = Ok item' /\ enriched A dist item item'.
Proof.
  unfold enrich, enriched, same_identity.
  destruct (truthy (value item)) eqn:Ht.
  - destruct (shares A item t dist) as [[p d]|e] eqn:E.
    + eexists. split; [reflexivity|]. simpl.
      split; [now repeat split|]. split; [|split; [discriminate|]].
      * intros _. do 2 (split; [discriminate|]).
        destruct dist as [amount|]; [|contradiction]. intros _.
        apply shares_with_amount in E. destruct d; [split; discriminate | contradiction].
      * intros ->. apply shares_without_amount in E. subst d. now split.
    + exists (mk_person (name item) (code item) (role item) (value item)
                (Some (lit "0,000000")) (Some (zero A))
                (match dist with Some _ => Some (lit "0,00") | None => total item end)
                (match dist with Some _ => Some (zero A) | None => total_float item end)).
      split; [destruct e; reflexivity|]. simpl.
      split; [now repeat split|]. split; [|split; [discriminate|]].
      * intros _. do 2 (split; [discriminate|]).
        destruct dist; [split; discriminate | contradiction].
      * intros ->. now split.
  - exists item. split; [reflexivity|].
    split; [now repeat split|]. split; [discriminate|]. now split.
Qed.

Lemma enrich_all_enriched (t : num A) (dist : option (num A)) (data : list (person (num A))) :
  exists out, enrich_all A t dist data = Ok out /\ Forall2 (enriched A dist) data out.
Proof.
  induction data as [|item rest (out & E & H)].
  - exists []. split; [reflexivity | constructor].
  - destruct (enrich_enriched t dist item) as (item' & E' & H').
    exists (item' :: out). simpl. rewrite E', E. simpl.
    split; [reflexivity | now constructor].
Qed.

Lemma aggregator_enriched (data : list (person (num A))) (dist : option (num A)) :
  exists out,
    calculate_percentages_and_distribution A data dist = Ok out
    /\ Forall2 (enriched A dist) data out.
Proof.
  destruct data as [|item rest].
  - exists []. split; [reflexivity | constructor].
  - unfold calculate_percentages_and_distribution, calculate_total_value.
    destruct (total_loop_ok A (item :: rest) (zero A) []) as (t & pr & ->).
    apply enrich_all_enriched.
Qed.

(** X7. For every list of records and every amount, supplied or not,
    [calculate_percentages_and_distribution] raises nothing and returns
    the records in their number and order, each with its name, code,
    role and value as they were.  A record with a value has a
    percentage and a percentage_float and, when an amount is supplied,
    a total and a total_float; a record with an empty value is returned
    as it is; and without an amount no total or total_float is
    written. *)
Theorem aggregator_keeps_records (data : list (person (num A))) (dist : option (num A)) :
  exists out,
    calculate_percentages_and_distribution A data dist = Ok out
    /\ List.length out = List.length data
    /\ Forall2 (enriched A dist) data out.
Proof.
  destruct (aggregator_enriched data dist) as (out & E & H).
  exists out. split; [exact E|]. split; [|exact H].
  symmetry. exact (Forall2_length H).
Qed.

(** What the total loop reads of a record is its value and its name. *)
Lemma total_loop_identity (data out : list (person (num A))) :
  Forall2 same_identity data out ->
  forall total printed, total_loop A out total printed = total_loop A data total printed.
Proof.
  induction 1 as [|item item' data out (Hn & _ & _ & Hv) _ IH]; intros total printed.
  - reflexivity.
  - rewrite !total_loop_cons. unfold warning. rewrite Hv, Hn.
    destruct (truthy (value item)); [|apply IH].
    destruct (locale_float A (value item)) as [x|e]; [apply IH|].
    destruct e; try reflexivity; apply IH.
Qed.

Lemma enriched_identity (dist : option (num A)) (data out : list (person (num A))) :
  Forall2 (enriched A dist) data out -> Forall2 same_identity data out.
Proof. induction 1 as [|? ? ? ? (H & _)]; constructor; assumption. Qed.

(** A second turn of the loop body on a record gives what the turn
    alone gives, unless the first had an amount and the second has
    none. *)
Lemma enrich_again (t : num A) (d1 d2 : option (num A)) (item item' : person (num A)) :
  d1 = None \/ d2 <> None ->
  enrich A t d1 item = Ok item' ->
  enrich A t d2 item' = enrich A t d2 item.
Proof.
  intros Hd He.
  destruct (truthy (value item)) eqn:Ht;
    [|unfold enrich in He; rewrite Ht in He; now injection He as <-].
  assert (K : forall p pf tot totf,
            (d2 = None -> tot = total item /\ totf = total_float item) ->
            enrich A t d2 (mk_person (name item) (code item) (role item) (value item)
                             p pf tot totf)
            = enrich A t d2 item).
  { intros p pf tot totf Hk. unfold enrich. cbn [value name code role total total_float].
    rewrite Ht.
    change (shares A (mk_person (name item) (code item) (role item) (value item)
                        p pf tot totf) t d2)
      with (shares A item t d2).
    destruct (shares A item t d2) as [[p2 dd]|e] eqn:E2.
    - destruct dd as [dd|]; [reflexivity|].
      destruct d2 as [amount|].
      + apply shares_with_amount in E2. contradiction.
      + destruct (Hk eq_refl) as [-> ->]. reflexivity.
    - destruct d2 as [amount|]; [reflexivity|].
      destruct (Hk eq_refl) as [-> ->]. reflexivity. }
  unfold enrich in He. rewrite Ht in He.
  destruct (shares A item t d1) as [[p d]|e] eqn:E1.
  - injection He as <-. apply K. intros ->.
    destruct Hd as [->|Hd]; [|contradiction].
    apply shares_without_amount in E1. subst d. now split.
  - assert (He' : item' = mk_person (name item) (code item) (role item) (value item)
                    (Some (lit "0,000000")) (Some (zero A))
                    (match d1 with Some _ => Some (lit "0,00") | None => total item end)
                    (match d1 with Some _ => Some (zero A) | None => total_float item end))
      by (destruct e; now injection He as <-).
    rewrite He'. apply K. intros ->.
    destruct Hd as [->|Hd]; [|contradiction]. now split.
Qed.

Lemma enrich_all_again (t : num A) (d1 d2 : option (num A)) (data : list (person (num A))) :
  d1 = None \/ d2 <> None ->
  forall out, enrich_all A t d1 data = Ok out ->
  enrich_all A t d2 out = enrich_all A t d2 data.
Proof.
  intros Hd. induction data as [|item rest IH]; intros out.
  - now intros [= <-].
  - simpl.
    destruct (enrich A t d1 item) as [item'|e] eqn:E; [|discriminate]. simpl.
    destruct (enrich_all A t d1 rest) as [rest'|e] eqn:Er; [|discriminate]. simpl.
    intros [= <-]. simpl.
    now rewrite (enrich_again t d1 d2 item item' Hd E), (IH rest' eq_refl).
Qed.

Lemma aggregator_again (d1 d2 : option (num A)) (data : list (person (num A))) :
  d1 = None \/ d2 <> None ->
  bind (calculate_percentages_and_distribution A data d1)
       (fun data' => calculate_percentages_and_distribution A data' d2)
  = calculate_percentages_and_distribution A data d2.
Proof.
  intros Hd. destruct (aggregator_enriched data d1) as (out & E & H).
  rewrite E. simpl.
  destruct data as [|item rest]; [now inversion H|].
  destruct out as [|item' rest']; [now inversion H|].
  unfold calculate_percentages_and_distribution in *.
  unfold calculate_total_value in *.
  rewrite (total_loop_identity _ _ (enriched_identity _ _ _ H)).
  destruct (total_loop A (item :: rest) (zero A) []) as [tv|e]; [|reflexivity].
  cbn [bind] in E |- *. now apply (enrich_all_again (fst tv) d1 d2 (item :: rest)).
Qed.

(** X8. The aggregator writes into the records it is given, and the
    program runs it twice on the same records: [print_data] without an
    amount, then [save_to_csv] with the amount of the command line.
    The second run gives what it gives on fresh records: with any
    records and any amount, supplied or not, running the aggregator
    without an amount and then again is the same as running it once;
    and so is running it with any amount and then with a supplied
    one. *)
Theorem aggregator_rerun (data : list (person (num A)))
    (dist : option (num A)) (amount : num A) :
  bind (calculate_percentages_and_distribution A data None)
       (fun data' => calculate_percentages_and_distribution A data' dist)
  = calculate_percentages_and_distribution A data dist
  /\ bind (calculate_percentages_and_distribution A data dist)
          (fun data' => calculate_percentages_and_distribution A data' (Some amount))
     = calculate_percentages_and_distribution A data (Some amount).
Proof.
  split; apply aggregator_again; [now left | right; discriminate].
Qed.

(** A turn of the loop body without an amount, on a record that had a
    turn with one, leaves the record as the first turn made it. *)
Lemma enrich_keeps_share (t amount : num A) (item item' : person (num A)) :
  is_zero A (hundred A) = false ->
  enrich A t (Some amount) item = Ok item' ->
  enrich A t None item' = Ok item'.
Proof.
  intros Hh He.
  destruct (truthy (value item)) eqn:Ht;
    [|unfold enrich in He; rewrite Ht in He; injection He as <-;
      unfold enrich; now rewrite Ht].
  assert (S : forall p pf tot totf,
            shares A (mk_person (name item) (code item) (role item) (value item)
                        p pf tot totf) t None
            = match shares A item t (Some amount) with
              | Ok (p, _) => Ok (p, None)
              | Raise e => Raise e
              end).
  { intros p pf tot totf. unfold shares. cbn [value].
    destruct (locale_float A (value item)) as [x|e]; [|reflexivity]. simpl.
    destruct (py_div A x t) as [q|e]; [|reflexivity]. simpl.
    unfold py_div. now rewrite Hh. }
  unfold enrich in He. rewrite Ht in He.
  destruct (shares A item t (Some amount)) as [[p d]|e] eqn:E1.
  - injection He as <-. unfold enrich. cbn [value name code role total total_float].
    rewrite Ht, S.
    apply shares_with_amount in E1. destruct d as [d|]; [reflexivity | contradiction].
  - assert (He' : item' = mk_person (name item) (code item) (role item) (value item)
                    (Some (lit "0,000000")) (Some (zero A))
                    (Some (lit "0,00")) (Some (zero A)))
      by (destruct e; now injection He as <-).
    rewrite He'. unfold enrich. cbn [value name code role total total_float].
    rewrite Ht, S. destruct e; reflexivity.
Qed.

Lemma enrich_all_keeps_share (t amount : num A) (data : list (person (num A))) :
  is_zero A (hundred A) = false ->
  forall out, enrich_all A t (Some amount) data = Ok out ->
  enrich_all A t None out = Ok out.
Proof.
  intros Hh. induction data as [|item rest IH]; intros out.
  - now intros [= <-].
  - simpl.
    destruct (enrich A t (Some amount) item) as [item'|e] eqn:E; [|discriminate]. simpl.
    destruct (enrich_all A t (Some amount) rest) as [rest'|e] eqn:Er; [|discriminate]. simpl.
    intros [= <-]. simpl.
    now rewrite (enrich_keeps_share t amount item item' Hh E), (IH rest' eq_refl).
Qed.

(** X9. In the other order the shares stay.  Where a hundred is not
    zero (as in both arithmetics here), running the aggregator with an
    amount and then without one gives the result of the first run,
    totals included: the run without an amount does not remove the
    total and total_float of the run before it. *)
Theorem aggregator_keeps_stale_shares (data : list (person (num A))) (amount : num A) :
  is_zero A (hundred A) = false ->
  bind (calculate_percentages_and_distribution A data (Some amount))
       (fun data' => calculate_percentages_and_distribution A data' None)
  = calculate_percentages_and_distribution A data (Some amount).
Proof.
  intros Hh. destruct (aggregator_enriched data (Some amount)) as (out & E & H).
  rewrite E. simpl.
  destruct data as [|item rest]; [now inversion H|].
  destruct out as [|item' rest']; [now inversion H|].
  unfold calculate_percentages_and_distribution in *.
  unfold calculate_total_value in *.
  rewrite (total_loop_identity _ _ (enriched_identity _ _ _ H)).
  destruct (total_loop A (item :: rest) (zero A) []) as [tv|e]; [|discriminate E].
  cbn [bind] in E |- *. now apply (enrich_all_keeps_share (fst tv) amount (item :: rest)).
Qed.

End AggregatorRuns.

Lemma aggregator_keeps_stale_shares_witness :
  is_zero binary64 (hundred binary64) = false
  /\ bind (calculate_percentages_and_distribution binary64
             [mk_person (lit "ANA") (lit "123456") (lit "MEDICO") (lit "1.234,56")
                None None None None]
             (Some (of_literal binary64 (LitNum false 1000 0))))
          (fun data' => calculate_percentages_and_distribution binary64 data' None)
     = calculate_percentages_and_distribution binary64
         [mk_person (lit "ANA") (lit "123456") (lit "MEDICO") (lit "1.234,56")
            None None None None]
         (Some (of_literal binary64 (LitNum false 1000 0))).
Proof.
  split; [reflexivity|].
  apply (aggregator_keeps_stale_shares binary64). reflexivity.
Defined.

(** ** The total of the values and the table *)

Section TotalAndTable.

Variable A : arith.

Lemma empty_value_raises : locale_float A [] = Raise ValueError.
Proof. reflexivity. Qed.

Lemma parsed_values_cons (item : person (num A)) (rest : list (person (num A))) :
  parsed_values A (item :: rest)
  = match locale_float A (value item) with
    | Ok x => [x]
    | Raise _ => []
    end ++ parsed_values A rest.
Proof. reflexivity. Qed.

Lemma total_loop_fold (data : list (person (num A))) :
  forall total printed,
  total_loop A data total printed
  = Ok (fold_left (add A) (parsed_values A data) total,
        printed ++ map (warning A) (filter (unconvertible A) data)).
Proof.
  induction data as [|item rest IH]; intros total printed.
  - simpl. now rewrite app_nil_r.
  - rewrite total_loop_cons, parsed_values_cons. cbn [filter]. unfold unconvertible at 1.
    destruct (truthy (value item)) eqn:Ht.
    + destruct (locale_float A (value item)) as [x|e] eqn:E.
      * simpl. apply IH.
      * apply locale_float_raises in E. subst e. simpl.
        rewrite IH, <- app_assoc. reflexivity.
    + destruct (value item); [|discriminate Ht]. rewrite empty_value_raises.
      simpl. apply IH.
Qed.

(** X10. For every list of records, [calculate_total_value] raises
    nothing; the total is the values that convert, added from the left
    to 0.0 in the order of the records; and it prints one warning for
    each record whose value is not empty and does not convert, in the
    order of the records, and none for a record with an empty value. *)
Theorem total_value_and_warnings (data : list (person (num A))) :
  calculate_total_value A data
  = Ok (sum A (parsed_values A data),
        map (warning A) (filter (unconvertible A) data)).
Proof. unfold calculate_total_value, sum. now rewrite total_loop_fold. Qed.

Lemma csv_item_enriched (dist : option (num A)) (item item' : person (num A)) :
  enriched A dist item item' ->
  (exists more,
     csv_item A (fieldnames A dist) item'
     = [("name"%string, name item); ("code"%string, code item);
        ("role"%string, role item); ("value"%string, value item)] ++ more)
  /\ (truthy (value item) = true ->
      map fst (csv_item A (fieldnames A dist) item') = fieldnames A dist).
Proof.
  intros ((Hn & Hc & Hr & Hv) & Hd & _ & _).
  unfold csv_item. destruct dist as [amount|]; cbn [fieldnames flat_map];
    unfold get; cbn [String.eqb Ascii.eqb Bool.eqb]; rewrite Hn, Hc, Hr, Hv.
  - split; [eexists; reflexivity|]. intros Ht.
    destruct (Hd Ht) as (Hp & _ & Ha). destruct (Ha ltac:(discriminate)) as [Htot _].
    destruct (percentage item'); [|contradiction].
    destruct (total item'); [reflexivity | contradiction].
  - split; [eexists; reflexivity|]. intros Ht.
    destruct (Hd Ht) as (Hp & _).
    destruct (percentage item'); [reflexivity | contradiction].
Qed.

(** X11. For every list of records that is not empty, and every
    amount, supplied or not, [save_to_csv] raises nothing and hands the
    writer the columns name, code, role, value, percentage and, with an
    amount, total, and one row for each record, in the order of the
    records.  Every row starts with the name, code, role and value of
    its record; the row of a record with a value has every column. *)
Theorem csv_rows (data : list (person (num A))) (dist : option (num A)) :
  data <> [] ->
  exists rows,
    save_to_csv A data dist = Ok (Some (fieldnames A dist, rows))
    /\ Forall2 (fun item row =>
                  (exists more,
                     row = [("name"%string, name item); ("code"%string, code item);
                            ("role"%string, role item); ("value"%string, value item)]
                           ++ more)
                  /\ (truthy (value item) = true -> map fst row = fieldnames A dist))
               data rows.
Proof.
  intros Hne. destruct (aggregator_enriched A data dist) as (out & E & H).
  exists (map (csv_item A (fieldnames A dist)) out). split.
  - destruct data as [|item rest]; [contradiction|].
    unfold save_to_csv. rewrite E. cbn [bind].
    unfold calculate_total_value. rewrite total_loop_fold. reflexivity.
  - clear E Hne. induction H as [|item item' data out Hi _ IH]; [constructor|].
    cbn [map]. constructor; [|exact IH]. now apply csv_item_enriched.
Qed.

End TotalAndTable.

Lemma csv_rows_witness :
  [mk_person (lit "ANA") (lit "123456") (lit "MEDICO") (lit "1.234,56")
     None None None (None : option (num binary64))] <> []
  /\ exists rows,
       save_to_csv binary64
         [mk_person (lit "ANA") (lit "123456") (lit "MEDICO") (lit "1.234,56")
            None None None None]
         (Some (of_literal binary64 (LitNum false 1000 0)))
       = Ok (Some (["name"; "code"; "role"; "value"; "percentage"; "total"]%string, rows))
       /\ List.length rows = 1%nat.
Proof.
  split; [discriminate|].
  destruct (csv_rows binary64
              [mk_person (lit "ANA") (lit "123456") (lit "MEDICO") (lit "1.234,56")
                 None None None None]
              (Some (of_literal binary64 (LitNum false 1000 0)))
              ltac:(discriminate)) as (rows & E & H).
  exists rows. split; [exact E|].
  apply Forall2_length in H. now rewrite <- H.
Defined.

(** ** The lines and the records of the extractor *)

Lemma lstrip_suffix (s : str) :
  exists w, s = w ++ lstrip s /\ forallb is_space w = true.
Proof.
  induction s as [|c s (w & E & Hw)]; [now exists []|].
  simpl. destruct (is_space c) eqn:Hc.
  - exists (c :: w). simpl. rewrite Hc, Hw. split; [now rewrite <- E | reflexivity].
  - now exists [].
Qed.

Lemma lstrip_head (s : str) :
  lstrip s = [] \/ exists c t, lstrip s = c :: t /\ is_space c = false.
Proof.
  induction s as [|c s IH]; [now left|].
  simpl. destruct (is_space c) eqn:Hc; [exact IH|].
  right. now exists c, s.
Qed.

(** What [strip] returns has no white space at either end. *)
Lemma strip_ends (s : str) :
  strip s = [] \/
  exists c s1 d s2, strip s = c :: s1 /\ strip s = s2 ++ [d]
                    /\ is_space c = false /\ is_space d = false.
Proof.
  unfold strip, rstrip.
  destruct (lstrip_head (rev (lstrip s))) as [->|(d & v & Ev & Hd)]; [now left|].
  right. rewrite Ev.
  destruct (lstrip_suffix (rev (lstrip s))) as (w & E & _). rewrite Ev in E.
  apply (f_equal (@rev N)) in E. rewrite rev_involutive, rev_app_distr in E.
  change (rev (d :: v)) with (rev v ++ [d]) in *.
  destruct (rev v ++ [d]) as [|c s1] eqn:E1; [now destruct (rev v)|].
  exists c, s1, d, (rev v). repeat split; try assumption; try (symmetry; exact E1).
  destruct (lstrip_head s) as [E0|(c' & t & E' & Hc)].
  - rewrite E0 in E. discriminate E.
  - rewrite E' in E. simpl in E. injection E as -> _. exact Hc.
Qed.

Lemma strip_strip (s : str) : strip (strip s) = strip s.
Proof.
  destruct (strip_ends s) as [->|(c & s1 & d & s2 & E1 & E2 & Hc & Hd)]; [reflexivity|].
  now apply (strip_id _ s1 s2 c d).
Qed.

Lemma strip_infix (s : str) :
  exists w1 w2, s = w1 ++ strip s ++ w2
                /\ forallb is_space w1 = true /\ forallb is_space w2 = true.
Proof.
  destruct (lstrip_suffix s) as (w1 & E1 & H1).
  destruct (lstrip_suffix (rev (lstrip s))) as (w & E2 & H2).
  exists w1, (rev w). unfold strip, rstrip. split; [|split; [exact H1|]].
  - rewrite <- rev_app_distr, <- E2, rev_involutive. exact E1.
  - now rewrite forallb_rev.
Qed.

Lemma forallb_strip (P : char -> bool) (s : str) :
  forallb P s = true -> forallb P (strip s) = true.
Proof.
  destruct (strip_infix s) as (w1 & w2 & E & _). intros H. rewrite E in H.
  rewrite !forallb_app in H.
  apply andb_true_iff in H. destruct H as [_ H].
  apply andb_true_iff in H. now destruct H.
Qed.

Lemma strip_nonempty (s : str) (d : char) :
  In d s -> is_space d = false -> strip s <> [].
Proof.
  intros Hin Hd E. destruct (strip_infix s) as (w1 & w2 & Es & H1 & H2).
  rewrite E in Es. simpl in Es. rewrite Es in Hin.
  rewrite forallb_forall in H1, H2.
  apply in_app_or in Hin. destruct Hin as [H|H]; [apply H1 in H | apply H2 in H]; congruence.
Qed.

Lemma strip_app_space (s : str) (c : char) :
  is_space c = true -> strip (s ++ [c]) = strip s.
Proof.
  intros Hc. unfold strip.
  assert (L : lstrip (s ++ [c]) = match lstrip s with [] => [] | _ :: _ => lstrip s ++ [c] end).
  { induction s as [|x s IH]; simpl; [now rewrite Hc|].
    destruct (is_space x); [exact IH | reflexivity]. }
  rewrite L. destruct (lstrip s) as [|y u] eqn:E; [reflexivity|].
  unfold rstrip. rewrite rev_app_distr. simpl rev at 2. simpl app at 1.
  cbn [lstrip]. now rewrite Hc.
Qed.

Lemma prepass_kept (lines : list str) : Forall kept_line (prepass lines).
Proof.
  induction lines as [|line0 rest IH]; [constructor|].
  cbn [prepass].
  destruct (is_empty (strip line0)) eqn:He; [exact IH|].
  destruct (startswith (lit "_") (strip line0)) eqn:Hu; [exact IH|].
  destruct (startswith (lit "-") (strip line0)) eqn:Hm; [exact IH|].
  cbn [orb]. destruct (any_header extract_headers (strip line0)) eqn:Hh; [exact IH|].
  constructor; [|exact IH]. unfold kept_line. rewrite strip_strip.
  repeat split; try assumption. intros E. rewrite E in He. discriminate He.
Qed.

Lemma prepass_of_kept (lines : list str) :
  Forall kept_line lines -> prepass lines = lines.
Proof.
  induction 1 as [|line rest (Hn & Hs & Hu & Hm & Hh) _ IH]; [reflexivity|].
  cbn [prepass]. rewrite Hs, Hu, Hm, Hh, IH.
  destruct line; [contradiction | reflexivity].
Qed.

Lemma prepass_stripped (lines : list str) :
  subsequence (prepass lines) (map strip lines).
Proof.
  induction lines as [|line0 rest IH]; [constructor|].
  cbn [prepass map].
  destruct (is_empty (strip line0) || startswith (lit "_") (strip line0)
            || startswith (lit "-") (strip line0)); [now apply subsequence_drop|].
  destruct (any_header extract_headers (strip line0));
    [now apply subsequence_drop | now apply subsequence_keep].
Qed.

(** X12. The pre-pass of [extract_data_from_txt] returns stripped
    lines of the input, in their order; every line it returns is not
    empty, has no white space at either end, does not start with an
    underscore or a hyphen and holds none of the five header words;
    and running it on its own output changes nothing. *)
Theorem prepass_invariant (lines : list str) :
  subsequence (prepass lines) (map strip lines)
  /\ Forall kept_line (prepass lines)
  /\ prepass (prepass lines) = prepass lines.
Proof.
  split; [apply prepass_stripped|]. split; [apply prepass_kept|].
  apply prepass_of_kept, prepass_kept.
Qed.

Lemma person_pattern_shape (s : str) (caps : list str) (rest : str) :
  denotes person_pattern s caps rest ->
  exists n ws1 c ws2 r,
    caps = [n; c; r] /\ s = n ++ ws1 ++ c ++ ws2 ++ r ++ rest
    /\ forallb cls_name n = true
    /\ List.length c = 6%nat /\ forallb is_digit c = true
    /\ r <> [] /\ at_eol rest = true.
Proof.
  unfold person_pattern, plus_lazy, plus, exactly. simpl.
  intros (c1 & mid1 & c2 & H1 & H & ->).
  destruct H1 as (n & c1' & (n' & En' & Hn & _ & _ & ->) & En & ->).
  rewrite En in En'. apply app_inv_tail in En'. subst n'.
  destruct H as (c3 & mid2 & c4 & (ws1 & Ews1 & _ & _ & _ & ->) & H & ->).
  destruct H as (c5 & mid3 & c6 & H3 & H & ->).
  destruct H3 as (c & c5' & (c' & Ec' & Hc & Lc1 & Lc2 & ->) & Ec & ->).
  rewrite Ec in Ec'. apply app_inv_tail in Ec'. subst c'.
  destruct H as (c7 & mid4 & c8 & (ws2 & Ews2 & _ & _ & _ & ->) & H & ->).
  destruct H as (c9 & mid5 & c10 & H5 & (E & He & ->) & ->). subst mid5.
  destruct H5 as (r & c9' & (r' & Er' & _ & Lr & _ & ->) & Er & ->).
  rewrite Er in Er'. apply app_inv_tail in Er'. subst r'.
  exists n, ws1, c, ws2, r. simpl.
  repeat split; try assumption.
  - now rewrite En, Ews1, Ec, Ews2, Er.
  - lia.
  - intros ->. simpl in Lr. lia.
Qed.

Lemma digits_stripped (c : str) : forallb is_digit c = true -> strip c = c.
Proof.
  intros H. destruct c as [|x c]; [reflexivity|].
  assert (Hne : x :: c <> []) by discriminate.
  destruct (exists_last Hne) as (c' & d & E).
  rewrite forallb_forall in H.
  apply (strip_id _ c c' x d); [reflexivity | exact E | |];
    apply digit_not_space, H; [now left | rewrite E; apply in_or_app; right; now left].
Qed.

(** The fields read off an identity line the pre-pass kept. *)
Lemma person_search_shape {T : Type} (line : str) (pm : list str) (v : str) :
  kept_line line -> search person_pattern line = Some pm -> locale_number v ->
  record_shape (new_person pm v : person T).
Proof.
  intros (Hne & Hs & _) Hm Hv.
  apply search_some in Hm. destruct Hm as (pre & s' & rest & El & Hd).
  apply person_pattern_shape in Hd.
  destruct Hd as (n & ws1 & c & ws2 & r & -> & -> & Hn & Lc & Hc & Nr & He).
  unfold record_shape, new_person.
  cbn [name code role value percentage percentage_float total total_float].
  change (group 1 [n; c; r]) with n. change (group 2 [n; c; r]) with c.
  change (group 3 [n; c; r]) with r.
  rewrite (digits_stripped c Hc), !strip_strip.
  repeat split; try assumption; try reflexivity.
  - now apply forallb_strip.
  - destruct (strip_ends line) as [E|(x & s1 & d & s2 & _ & E2 & _ & Hd)];
      rewrite Hs in *; [contradiction|].
    destruct (exists_last Nr) as (r' & y & Er).
    apply at_eol_cases in He. destruct He as [->| ->].
    + assert (y = d).
      { rewrite El, Er, app_nil_r, !app_assoc in E2.
        now apply app_inj_tail in E2. }
      subst y. apply (strip_nonempty r d); [|exact Hd].
      rewrite Er. apply in_or_app. right. now left.
    + exfalso. rewrite El, !app_assoc in E2. apply app_inj_tail in E2.
      destruct E2 as [_ <-]. discriminate Hd.
Qed.

Section BlockShape.

Local Open Scope nat_scope.

Context {T : Type}.

Lemma blocks_shape (cleaned_lines : list str) (fuel : nat) :
  Forall kept_line cleaned_lines ->
  forall i (results : list (person T)),
  Forall record_shape results ->
  Forall record_shape (blocks fuel cleaned_lines i results).
Proof.
  intros Hk. induction fuel as [|fuel IH]; intros i results Hr; [assumption|].
  rewrite blocks_step.
  destruct (Nat.ltb_spec i (List.length cleaned_lines - 2)) as [Hi|]; [|assumption].
  destruct (search person_pattern _) as [pm|] eqn:Ep; [|now apply IH].
  destruct (search value_pattern _) as [vm|] eqn:Ev; [|now apply IH].
  apply IH. apply Forall_app. split; [assumption|].
  constructor; [|constructor].
  apply value_search_sound in Ev. destruct Ev as (v & -> & Hv).
  change (group 1 [v]) with v. rewrite (strip_locale_number v Hv).
  apply (person_search_shape (nth i cleaned_lines []) pm v); [|exact Ep|exact Hv].
  rewrite Forall_forall in Hk. apply Hk, nth_In. lia.
Qed.

Lemma blocks_count (cleaned_lines : list str) (fuel : nat) :
  forall i (results : list (person T)),
  i <= List.length cleaned_lines ->
  3 * List.length (blocks fuel cleaned_lines i results) + i
  <= 3 * List.length results + List.length cleaned_lines.
Proof.
  induction fuel as [|fuel IH]; intros i results Hi; [simpl; lia|].
  rewrite blocks_step.
  destruct (Nat.ltb_spec i (List.length cleaned_lines - 2)) as [Hlt|]; [|lia].
  destruct (search person_pattern _) as [pm|].
  - destruct (search value_pattern _) as [vm|].
    + specialize (IH (i + 3) (results ++ [new_person pm (strip (group 1 vm))])).
      rewrite length_app in IH. simpl List.length in IH.
      change (mk_person (strip (group 1 pm)) (strip (group 2 pm)) (strip (group 3 pm))
                (strip (group 1 vm)) None None None None)
        with (new_person pm (strip (group 1 vm)) : person T).
      lia.
    + specialize (IH (i + 3) results). lia.
  - specialize (IH (i + 1) results). lia.
Qed.

(** X13. Every record [extract_data_from_txt] returns, from any lines,
    has a code of exactly six decimal digits, a name of the letters and
    white space of the name class with no white space at either end, a
    role that is not empty and has no white space at either end, a
    value in locale format, and none of the four derived fields; and
    the records are at most a third as many as the lines the pre-pass
    kept. *)
Theorem extracted_records_shape (lines : list str) :
  Forall record_shape (extract_data_from_txt lines : list (person T))
  /\ 3 * List.length (extract_data_from_txt lines : list (person T))
     <= List.length (prepass lines).
Proof.
  unfold extract_data_from_txt. split.
  - apply blocks_shape; [apply prepass_kept | constructor].
  - pose proof (blocks_count (prepass lines) (List.length (prepass lines)) 0 []
                  (Nat.le_0_l _)) as H.
    change (List.length (@nil (person T))) with 0 in H. lia.
Qed.

End BlockShape.

(** ** From the saved text to the lines of the extractor *)

Lemma universal_newlines_id (s : str) : ~ In 13 s -> universal_newlines s = s.
Proof.
  induction s as [|c s IH]; intros Hn; [reflexivity|].
  cbn [universal_newlines].
  destruct (N.eqb_spec c 13) as [->|_]; [exfalso; apply Hn; now left|].
  rewrite IH; [reflexivity | intros H; apply Hn; now right].
Qed.

Lemma prepass_cons_strip (a b : str) (r1 r2 : list str) :
  strip a = strip b -> prepass r1 = prepass r2 -> prepass (a :: r1) = prepass (b :: r2).
Proof. intros Hs Hr. cbn [prepass]. now rewrite Hs, Hr. Qed.

(** The pre-pass strips the lines, so the line ends [readlines] keeps
    make no difference to it. *)
Lemma prepass_lines_from (s : str) :
  forall cur, prepass (lines_from cur s) = prepass (split_from nl cur s).
Proof.
  induction s as [|c s IH]; intros cur.
  - destruct cur; reflexivity.
  - cbn [lines_from split_from]. destruct (N.eqb_spec c nl) as [->|_]; [|apply IH].
    apply prepass_cons_strip; [|apply IH].
    change (rev (nl :: cur)) with (rev cur ++ [nl]). now apply strip_app_space.
Qed.

Lemma in_split_from (sep : char) (s : str) :
  forall cur l c, In l (split_from sep cur s) -> In c l -> In c cur \/ In c s.
Proof.
  induction s as [|x s IH]; intros cur l c Hl Hc; simpl in Hl.
  - destruct Hl as [<-|[]]. left. now apply in_rev.
  - destruct (x =? sep).
    + destruct Hl as [<-|Hl]; [left; now apply in_rev|].
      destruct (IH [] l c Hl Hc) as [[]|H]. right. now right.
    + destruct (IH (x :: cur) l c Hl Hc) as [[->|H]|H].
      * right. now left.
      * now left.
      * right. now right.
Qed.

Lemma in_join (sep : char) (parts : list str) (c : char) :
  In c (join sep parts) -> c = sep \/ exists l, In l parts /\ In c l.
Proof.
  induction parts as [|p rest IH]; [intros []|].
  destruct rest as [|q rest].
  - intros H. right. exists p. split; [now left | exact H].
  - change (join sep (p :: q :: rest)) with (p ++ sep :: join sep (q :: rest)).
    intros H. apply in_app_or in H. destruct H as [H|[<-|H]].
    + right. exists p. split; [now left | exact H].
    + now left.
    + destruct (IH H) as [->|(l & Hl & Hc)]; [now left|].
      right. exists l. split; [now right | exact Hc].
Qed.

Lemma clean_text_chars (t : str) (c : char) :
  In c (clean_text t) -> c = nl \/ In c t.
Proof.
  intros H. apply in_join in H. destruct H as [->|(l & Hl & Hc)]; [now left|].
  right. pose proof (clean_lines_kept (split nl t) false) as Hk.
  rewrite Forall_forall in Hk. destruct (Hk l Hl) as [_ Hin].
  destruct (in_split_from nl t [] l c Hin Hc) as [[]|H]. exact H.
Qed.

Lemma split_clean_text (t : str) :
  prepass (split nl (clean_text t)) = prepass (clean_lines false (split nl t)).
Proof.
  unfold clean_text.
  destruct (clean_lines false (split nl t)) as [|l ls] eqn:E; [reflexivity|].
  rewrite split_join; [reflexivity | discriminate|].
  pose proof (clean_lines_kept (split nl t) false) as Hk. rewrite E in Hk.
  eapply Forall_impl; [|exact Hk]. intros x [_ Hin].
  pose proof (split_from_one_line nl t [] (fun x => x)) as Hs.
  rewrite Forall_forall in Hs. now apply Hs.
Qed.

(** X14. [process_pdf] saves a text and [extract_data_from_txt] reads
    the file back with [readlines].  For a text with no carriage return
    the round makes no difference to the extractor: read back from the
    file, the text gives the records of its lines split at the line
    feeds, and the cleaned text gives the records of the lines that
    [clean_text] kept. *)
Theorem extraction_from_saved_text {T : Type} (t : str) :
  ~ In 13 t ->
  (extract_data_from_txt (readlines t) : list (person T))
  = extract_data_from_txt (split nl t)
  /\ (extract_data_from_txt (readlines (clean_text t)) : list (person T))
     = extract_data_from_txt (clean_lines false (split nl t)).
Proof.
  intros Hn.
  assert (R : forall s, ~ In 13 s -> prepass (readlines s) = prepass (split nl s)).
  { intros s Hs. unfold readlines, split.
    rewrite (universal_newlines_id s Hs). apply prepass_lines_from. }
  unfold extract_data_from_txt. split.
  - now rewrite (R t Hn).
  - rewrite R, split_clean_text; [reflexivity|].
    intros H. apply clean_text_chars in H. destruct H as [H|H]; [discriminate H | now apply Hn].
Qed.

Lemma extraction_from_saved_text_witness :
  ~ In 13 (lit "ANA 123456 MEDICO")
  /\ (extract_data_from_txt (readlines (lit "ANA 123456 MEDICO")) : list (person unit))
     = extract_data_from_txt (split nl (lit "ANA 123456 MEDICO"))
  /\ (extract_data_from_txt (readlines (clean_text (lit "ANA 123456 MEDICO")))
        : list (person unit))
     = extract_data_from_txt (clean_lines false (split nl (lit "ANA 123456 MEDICO"))).
Proof.
  assert (H : ~ In 13 (lit "ANA 123456 MEDICO")).
  { vm_compute. intros H.
    repeat (destruct H as [H|H]; [discriminate H|]). exact H. }
  split; [exact H|].
  exact (extraction_from_saved_text (lit "ANA 123456 MEDICO") H).
Defined.

Lemma prepass_readlines_join (L : list str) :
  Forall (fun l => ~ In nl l /\ ~ In 13 l) L ->
  prepass (readlines (join nl L)) = prepass L.
Proof.
  intros HL. unfold readlines.
  rewrite universal_newlines_id.
  - rewrite prepass_lines_from. fold (split nl (join nl L)).
    destruct L as [|l ls]; [reflexivity|].
    rewrite split_join; [reflexivity | discriminate|].
    eapply Forall_impl; [|exact HL]. now intros x [H _].
  - intros H. apply in_join in H. destruct H as [H|(l & Hl & Hc)]; [discriminate H|].
    rewrite Forall_forall in HL. now apply (HL l Hl).
Qed.

Lemma page_contents_in (pages : list (option str)) (text : str) :
  In text (page_contents pages) -> In (Some text) pages.
Proof.
  induction pages as [|page rest IH]; [intros []|].
  destruct page as [[|c t]|]; cbn [page_contents flat_map app].
  - intros H. right. now apply IH.
  - intros [<-|H]; [now left | right; now apply IH].
  - intros H. right. now apply IH.
Qed.

(** X15. The first two steps of [process_pdf_to_csv] with cleaning on:
    the text of the pages is cleaned and saved, and the extractor reads
    the file back.  When no page text has a carriage return, the
    records are those of the lines [clean_text] keeps of the lines of
    the pages, taken one page after the other: the page markers, the
    joining of the pages and the round through the file leave no
    trace. *)
Theorem records_of_document {T : Type} (pages : list (option str)) (no_page_markers : bool) :
  Forall (fun page => match page with
                      | Some text => ~ In 13 text
                      | None => True
                      end) pages ->
  (extract_data_from_txt (readlines (process_pdf pages true no_page_markers))
     : list (person T))
  = extract_data_from_txt (clean_lines false (flat_map (split nl) (page_contents pages))).
Proof.
  intros Hp. unfold extract_data_from_txt.
  assert (E : process_pdf pages true no_page_markers
              = join nl (clean_lines false (flat_map (split nl) (page_contents pages)))).
  { unfold process_pdf, clean_text, extract_text_from_pdf. f_equal.
    rewrite <- (clean_all_text pages 0 false).
    destruct (all_text 0 pages) as [|e es] eqn:Ea; [reflexivity|].
    now rewrite split_join_concat by discriminate. }
  rewrite E, prepass_readlines_join; [reflexivity|].
  pose proof (clean_lines_kept (flat_map (split nl) (page_contents pages)) false) as Hk.
  eapply Forall_impl; [|exact Hk]. intros l [_ Hin].
  apply in_flat_map in Hin. destruct Hin as (text & Ht & Hl). split.
  - pose proof (split_from_one_line nl text [] (fun x => x)) as Hs.
    rewrite Forall_forall in Hs. now apply Hs.
  - intros Hc. destruct (in_split_from nl text [] l 13 Hl Hc) as [[]|H].
    apply page_contents_in in Ht. rewrite Forall_forall in Hp.
    exact (Hp _ Ht H).
Qed.

Lemma records_of_document_witness :
  Forall (fun page => match page with
                      | Some text => ~ In 13 text
                      | None => True
                      end) [Some (lit "A 123456 B"); None]
  /\ (extract_data_from_txt (readlines (process_pdf [Some (lit "A 123456 B"); None] true false))
        : list (person unit))
     = extract_data_from_txt
         (clean_lines false (flat_map (split nl) (page_contents [Some (lit "A 123456 B"); None]))).
Proof.
  assert (H : Forall (fun page => match page with
                                  | Some text => ~ In 13 text
                                  | None => True
                                  end) [Some (lit "A 123456 B"); None]).
  { constructor; [|constructor; [exact I | constructor]].
    vm_compute. intros H. repeat (destruct H as [H|H]; [discriminate H|]). exact H. }
  split; [exact H|].
  exact (records_of_document [Some (lit "A 123456 B"); None] false H).
Defined.

(** ** Dots in an amount *)

(** X16. The locale parse takes every dot for a grouping dot: a dot
    makes no difference wherever it stands, to the distribution amount
    [parse_amount] returns (and to what it prints) and to the number a
    value converts to, so that a text with a decimal point reads as
    the number without the point. *)
Theorem dots_are_ignored (A : arith) (a b : str) :
  parse_amount A (Some (a ++ 46 :: b)) = parse_amount A (Some (a ++ b))
  /\ locale_float A (a ++ 46 :: b) = locale_float A (a ++ b).
Proof.
  assert (E : replace 46 [] (a ++ 46 :: b) = replace 46 [] (a ++ b)).
  { now rewrite !replace_app. }
  unfold parse_amount, locale_float. now rewrite E.
Qed.
